(** * Pro Clubs Championship backend (server.js): model and verified properties

    The Express application of server.js is embedded as a pure function from
    a server state and a request to a new state, a trace of effects and an
    outcome.  The external packages the file calls are modelled after their
    documented behaviour:

    - express: the middleware chain, [app.use] before the route stacks;
    - express.json(): reads and parses a JSON body, answers 400 on a body it
      cannot parse, leaves a request without JSON body unread;
    - mongoose: collections as lists of documents in insertion order, schema
      paths optional, paths outside the schema dropped (strict mode);
    - jsonwebtoken and bcryptjs: interfaces ([Jwt], [Bcrypt]) whose laws are
      hypotheses of the theorems that need them.

    The proxy route /api/ea/clubdetails and discord-bot.js touch neither
    the store nor authentication and are modelled apart ([Ea], [Bot]).

    Numbers are integers ([Z]); timestamps are seconds since the epoch, the
    unit of the [iat] and [exp] claims; the path parameter [:id] is either
    the text of an ObjectId or a string mongoose cannot cast to one, on
    which [findByIdAndUpdate] and [findByIdAndDelete] throw; request
    payloads are JSON objects whose values have the type of the schema path
    they name (a body that carries an [_id], an update operator such as
    [$inc], or an object where the schema has a string, is outside the
    model).  server.js catches no error: a handler that throws sends
    nothing, and the unhandled rejection ends the process. *)

From Stdlib Require Import List String Ascii Bool ZArith NArith Lia.
From Stdlib Require Import Sorting.Sorted Sorting.Permutation.
Import ListNotations.
Open Scope string_scope.

(** ** JavaScript values and operators used by the handlers *)

#[local] Unset Elimination Schemes.
Inductive json : Type :=
| JNull
| JBool (b : bool)
| JNum (z : Z)
| JStr (s : string)
| JArr (l : list json)
| JObj (m : list (string * json)).
#[local] Set Elimination Schemes.

(** A property read: [undefined], a string or a number. *)
Inductive JsVal : Type :=
| Undefined
| Str (s : string)
| Num (z : Z).

Definition of_String (o : option string) : JsVal :=
  match o with Some s => Str s | None => Undefined end.

Definition of_Number (o : option Z) : JsVal :=
  match o with Some z => Num z | None => Undefined end.

Definition truthy (v : JsVal) : bool :=
  match v with
  | Undefined => false
  | Str s => negb (s =? "")
  | Num z => negb (z =? 0)%Z
  end.

(** [a || b] *)
Definition js_or (a b : JsVal) : JsVal := if truthy a then a else b.


(** [s.split(sep)] for a separator of one character. *)
Fixpoint split (sep : ascii) (s : string) : list string :=
  match s with
  | EmptyString => [EmptyString]
  | String c r =>
      if Ascii.eqb c sep then EmptyString :: split sep r
      else match split sep r with
           | [] => [String c EmptyString]
           | w :: ws => String c w :: ws
           end
  end.

(** A string is truthy unless it is empty; [None] stands for [undefined]. *)
Definition truthy_string (o : option string) : bool :=
  match o with
  | None => false
  | Some s => negb (s =? "")
  end.

Fixpoint no_char (c : ascii) (s : string) : bool :=
  match s with
  | EmptyString => true
  | String a r => negb (Ascii.eqb a c) && no_char c r
  end.

Definition opt_eqb {A} (eqb : A -> A -> bool) (a b : option A) : bool :=
  match a, b with
  | Some x, Some y => eqb x y
  | None, None => true
  | _, _ => false
  end.

(** An update path present in the payload replaces the stored value. *)
Definition set_path {A} (new old : option A) : option A :=
  match new with
  | Some v => Some v
  | None => old
  end.

(** ** Request payloads

    [req.body] after express.json(): a JSON object, read at the paths some
    schema or handler names. *)

Definition oid := N.

Module Body.
Record t : Type := mk {
  name : option string;
  logo : option string;
  description : option string;
  stats : option json;
  club : option string;
  points : option Z;
  played : option Z;
  won : option Z;
  drawn : option Z;
  lost : option Z;
  gf : option Z;
  ga : option Z;
  gd : option Z;
  email : option string;
  password : option string
}.

(** [{}] *)
Definition empty : t :=
  mk None None None None None None None None None None None None None None None.
End Body.

(** ** Schemas *)

Module Club.
Record doc : Type := mk {
  _id : oid;
  name : option string;
  logo : option string;
  description : option string;
  stats : option json
}.

(** [new Club(body)] *)
Definition create (id : oid) (b : Body.t) : doc :=
  mk id (Body.name b) (Body.logo b) (Body.description b) (Body.stats b).

(** the update [body] applied to a stored document *)
Definition set (b : Body.t) (d : doc) : doc :=
  mk (_id d)
     (set_path (Body.name b) (name d))
     (set_path (Body.logo b) (logo d))
     (set_path (Body.description b) (description d))
     (set_path (Body.stats b) (stats d)).
End Club.

Module Player.
Record doc : Type := mk {
  _id : oid;
  name : option string;
  club : option string;
  stats : option json
}.

Definition create (id : oid) (b : Body.t) : doc :=
  mk id (Body.name b) (Body.club b) (Body.stats b).

Definition set (b : Body.t) (d : doc) : doc :=
  mk (_id d)
     (set_path (Body.name b) (name d))
     (set_path (Body.club b) (club d))
     (set_path (Body.stats b) (stats d)).
End Player.

Module Standing.
Record doc : Type := mk {
  _id : oid;
  club : option string;
  points : option Z;
  played : option Z;
  won : option Z;
  drawn : option Z;
  lost : option Z;
  gf : option Z;
  ga : option Z;
  gd : option Z
}.

Definition create (id : oid) (b : Body.t) : doc :=
  mk id (Body.club b) (Body.points b) (Body.played b) (Body.won b)
     (Body.drawn b) (Body.lost b) (Body.gf b) (Body.ga b) (Body.gd b).

Definition set (b : Body.t) (d : doc) : doc :=
  mk (_id d)
     (set_path (Body.club b) (club d))
     (set_path (Body.points b) (points d))
     (set_path (Body.played b) (played d))
     (set_path (Body.won b) (won d))
     (set_path (Body.drawn b) (drawn d))
     (set_path (Body.lost b) (lost d))
     (set_path (Body.gf b) (gf d))
     (set_path (Body.ga b) (ga d))
     (set_path (Body.gd b) (gd d)).

(** [row[path]]: a path the schema does not declare reads [undefined]. *)
Definition get (row : doc) (path : string) : JsVal :=
  if path =? "club" then of_String (club row)
  else if path =? "points" then of_Number (points row)
  else if path =? "played" then of_Number (played row)
  else if path =? "won" then of_Number (won row)
  else if path =? "drawn" then of_Number (drawn row)
  else if path =? "lost" then of_Number (lost row)
  else if path =? "gf" then of_Number (gf row)
  else if path =? "ga" then of_Number (ga row)
  else if path =? "gd" then of_Number (gd row)
  else Undefined.
End Standing.

Module User.
Record doc : Type := mk {
  _id : oid;
  email : option string;
  password : option string
}.
End User.

(** ** External packages *)

(** The payload server.js signs into a token: [{ email, id }]. *)
Record Claims : Type := mkClaims {
  claim_email : option string;
  claim_id : oid
}.

(** jsonwebtoken.  [jwt_sign payload secret expiresIn now] is
    [jwt.sign(payload, secret, { expiresIn })] called at time [now];
    [jwt_verify token secret now] is [jwt.verify(token, secret, cb)] called
    at time [now]: [None] when [cb] receives an error, the decoded payload
    otherwise. *)
Class Jwt : Type := {
  jwt_sign : Claims -> string -> N -> N -> string;
  jwt_verify : string -> string -> N -> option Claims
}.

(** bcryptjs.  [bcrypt_hash s rounds salt] is [bcrypt.hash(s, rounds)] when
    the salt it draws is [salt]; [bcrypt_compare s hash] is
    [bcrypt.compare(s, hash)]. *)
Class Bcrypt : Type := {
  bcrypt_hash : string -> N -> string -> string;
  bcrypt_compare : string -> string -> bool
}.

(** [process.env] *)
Class ProcessEnv : Type := {
  env_JWT_SECRET : option string
}.

(** ['1d'] as a span of seconds *)
Definition one_day : N := 86400.

(** ** Server state, requests and responses *)

Record State : Type := mkState {
  clubs : list Club.doc;
  players : list Player.doc;
  standings : list Standing.doc;
  users : list User.doc;
  next_oid : oid
}.

(** What a request brings that the server does not decide: the clock and
    the salt bcrypt draws. *)
Record Env : Type := mkEnv {
  now : N;
  salt : string
}.

Inductive Method : Type := GET | POST | PUT | DELETE.

Inductive Path : Type :=
| api_clubs
| api_clubs_id (id : oid)
| api_players
| api_players_id (id : oid)
| api_standings
| api_standings_id (id : oid)
| api_register
| api_login
(* /api/<collection>/:id where :id is not the text of an ObjectId *)
| api_clubs_bad_id (raw : string)
| api_players_bad_id (raw : string)
| api_standings_bad_id (raw : string).

(** The body a request carries, as express.json() finds it. *)
Inductive Payload : Type :=
| NoJson                 (* no body, or one that is not declared as JSON *)
| BadJson                (* a JSON body that does not parse *)
| Json (b : Body.t).     (* a JSON object *)

Record Request : Type := mkRequest {
  method : Method;
  path : Path;
  authorization : option string;   (* req.headers['authorization'] *)
  payload : Payload
}.

(** A row of GET /api/standings. *)
Module Row.
Record t : Type := mk {
  club : JsVal;
  logo : JsVal;
  p : JsVal;
  w : JsVal;
  d : JsVal;
  l : JsVal;
  gf : JsVal;
  ga : JsVal;
  gd : JsVal;
  pts : JsVal
}.
End Row.

(** Response bodies; [None] in a document position is JSON [null]. *)
Inductive Content : Type :=
| Empty
| Text (s : string)
| JsonClubs (l : list Club.doc)
| JsonClub (d : option Club.doc)
| JsonPlayers (l : list Player.doc)
| JsonPlayer (d : option Player.doc)
| JsonRows (l : list Row.t)
| JsonStanding (d : option Standing.doc)
| JsonMessage (s : string)
| JsonError (s : string)
| JsonToken (s : string).

Record Response : Type := mkResponse {
  status : N;
  content : Content
}.

(** [res.json(x)] answers with status 200 unless [res.status] was called. *)
Definition res_json (c : Content) : Response := mkResponse 200 c.

Definition res_sendStatus (code : N) : Response :=
  mkResponse code
    (Text (if (code =? 401)%N then "Unauthorized"
           else if (code =? 403)%N then "Forbidden"
           else "")).

Inductive DbOp : Type := Find | FindOne | Save | Update | Remove.

Inductive Event : Type :=
| ReadBody               (* the request stream is consumed and parsed *)
| VerifyToken (t : string)
| Db (op : DbOp).

(** The request as the layers see it: [req.body] and [req.user] are set on
    the way. *)
Record Ctx : Type := mkCtx {
  req : Request;
  body : Body.t;
  user : option Claims
}.

Inductive Step : Type :=
| Next (c : Ctx)         (* next() *)
| Respond (r : Response)
| Reject (e : string).   (* the async handler's promise rejects; it sends nothing *)

Inductive Outcome : Type :=
| Sent (r : Response)
| Unhandled (e : string).

Definition Middleware : Type := Env -> State -> Ctx -> State * list Event * Step.

(** ** mongoose *)

Section Collection.
Context {D : Type} (id_of : D -> oid).

(** [doc.save()] of a new document *)
Definition save (d : D) (c : list D) : list D := (c ++ [d])%list.

(** [Model.findByIdAndUpdate(id, update, { new: true })] *)
Fixpoint findByIdAndUpdate (id : oid) (update : D -> D) (c : list D)
  : list D * option D :=
  match c with
  | [] => ([], None)
  | d :: r =>
      if (id_of d =? id)%N then (update d :: r, Some (update d))
      else let (r', found) := findByIdAndUpdate id update r in (d :: r', found)
  end.

(** [Model.findByIdAndDelete(id)] *)
Fixpoint findByIdAndDelete (id : oid) (c : list D) : list D :=
  match c with
  | [] => []
  | d :: r => if (id_of d =? id)%N then r else d :: findByIdAndDelete id r
  end.
End Collection.

(** [User.findOne({ email })]: the first stored user whose email is the one
    asked for. *)
Definition findOne_email (email : option string) (c : list User.doc)
  : option User.doc :=
  find (fun u => opt_eqb String.eqb (User.email u) email) c.

(** The order of [sort({ points: -1 })]: a document without the path sorts
    below every number. *)
Definition points_geb (a b : option Z) : bool :=
  match a, b with
  | _, None => true
  | None, Some _ => false
  | Some x, Some y => (y <=? x)%Z
  end.

Fixpoint insert_by_points (d : Standing.doc) (c : list Standing.doc)
  : list Standing.doc :=
  match c with
  | [] => [d]
  | e :: r =>
      if points_geb (Standing.points d) (Standing.points e) then d :: e :: r
      else e :: insert_by_points d r
  end.

(** [Standing.find().sort({ points: -1 })] *)
Definition sort_points_desc (c : list Standing.doc) : list Standing.doc :=
  fold_right insert_by_points [] c.

(** ** server.js *)

Section Server.
Context {jwt : Jwt} {bcrypt : Bcrypt} {process : ProcessEnv}.

(** [process.env.JWT_SECRET || 'changeme'] *)
Definition JWT_SECRET : string :=
  if truthy_string env_JWT_SECRET
  then match env_JWT_SECRET with Some s => s | None => "changeme" end
  else "changeme".

Definition initial (r : Request) : Ctx := mkCtx r Body.empty None.

(** [cors()]: response headers only, for the methods modelled here. *)
Definition cors : Middleware := fun _ st ctx => (st, [], Next ctx).

(** [express.json()] *)
Definition express_json : Middleware := fun _ st ctx =>
  match payload (req ctx) with
  | NoJson => (st, [], Next ctx)
  | BadJson => (st, [ReadBody], Respond (mkResponse 400 (Text "Bad Request")))
  | Json b => (st, [ReadBody], Next (mkCtx (req ctx) b (user ctx)))
  end.

(** [authHeader && authHeader.split(' ')[1]] *)
Definition token_of (authHeader : option string) : option string :=
  if truthy_string authHeader
  then match authHeader with
       | Some h => nth_error (split " " h) 1
       | None => None
       end
  else authHeader.

Definition authenticateToken : Middleware := fun env st ctx =>
  let authHeader := authorization (req ctx) in
  let token := token_of authHeader in
  if negb (truthy_string token) then (st, [], Respond (res_sendStatus 401))
  else
    match token with
    | None => (st, [], Respond (res_sendStatus 401))
    | Some t =>
        match jwt_verify t JWT_SECRET (now env) with
        | None => (st, [VerifyToken t], Respond (res_sendStatus 403))
        | Some u => (st, [VerifyToken t], Next (mkCtx (req ctx) (body ctx) (Some u)))
        end
    end.

(** *** Read routes *)

Definition get_api_clubs : Middleware := fun _ st _ =>
  (st, [Db Find], Respond (res_json (JsonClubs (clubs st)))).

Definition get_api_players : Middleware := fun _ st _ =>
  (st, [Db Find], Respond (res_json (JsonPlayers (players st)))).

(** The display row of GET /api/standings. *)
Definition mapped (row : Standing.doc) : Row.t :=
  {| Row.club := Standing.get row "club";
     Row.logo := js_or (Standing.get row "logo") (Str "");
     Row.p := Standing.get row "played";
     Row.w := Standing.get row "won";
     Row.d := Standing.get row "drawn";
     Row.l := Standing.get row "lost";
     Row.gf := Standing.get row "gf";
     Row.ga := Standing.get row "ga";
     Row.gd := Standing.get row "gd";
     Row.pts := Standing.get row "points" |}.

Definition get_api_standings : Middleware := fun _ st _ =>
  let found := sort_points_desc (standings st) in
  (st, [Db Find], Respond (res_json (JsonRows (map mapped found)))).

(** *** Accounts

    [bcrypt.hash] and [bcrypt.compare] reject an argument that is not a
    string; server.js catches nothing, so the handler ends without a
    response. *)

Definition post_api_register : Middleware := fun env st ctx =>
  let email := Body.email (body ctx) in
  match Body.password (body ctx) with
  | None => (st, [], Reject "Illegal arguments: undefined, number")
  | Some password =>
      let hashed := bcrypt_hash password 10 (salt env) in
      let user := User.mk (next_oid st) email (Some hashed) in
      (mkState (clubs st) (players st) (standings st)
               (save user (users st)) (N.succ (next_oid st)),
       [Db Save],
       Respond (mkResponse 201 (JsonMessage "User registered")))
  end.

Definition post_api_login : Middleware := fun env st ctx =>
  let email := Body.email (body ctx) in
  match findOne_email email (users st) with
  | None =>
      (st, [Db FindOne], Respond (mkResponse 400 (JsonError "Invalid credentials")))
  | Some user =>
      match Body.password (body ctx), User.password user with
      | Some password, Some hash =>
          if bcrypt_compare password hash then
            let token :=
              jwt_sign (mkClaims (User.email user) (User._id user))
                       JWT_SECRET one_day (now env) in
            (st, [Db FindOne], Respond (res_json (JsonToken token)))
          else
            (st, [Db FindOne],
             Respond (mkResponse 400 (JsonError "Invalid credentials")))
      | _, _ => (st, [Db FindOne], Reject "Illegal arguments")
      end
  end.

(** *** Clubs *)

Definition post_api_clubs : Middleware := fun _ st ctx =>
  let club := Club.create (next_oid st) (body ctx) in
  (mkState (save club (clubs st)) (players st) (standings st) (users st)
           (N.succ (next_oid st)),
   [Db Save],
   Respond (mkResponse 201 (JsonClub (Some club)))).

Definition put_api_clubs_id (id : oid) : Middleware := fun _ st ctx =>
  let (clubs', club) :=
    findByIdAndUpdate Club._id id (Club.set (body ctx)) (clubs st) in
  (mkState clubs' (players st) (standings st) (users st) (next_oid st),
   [Db Update],
   Respond (res_json (JsonClub club))).

Definition delete_api_clubs_id (id : oid) : Middleware := fun _ st _ =>
  (mkState (findByIdAndDelete Club._id id (clubs st)) (players st)
           (standings st) (users st) (next_oid st),
   [Db Remove],
   Respond (mkResponse 204 Empty)).

(** *** Players *)

Definition post_api_players : Middleware := fun _ st ctx =>
  let player := Player.create (next_oid st) (body ctx) in
  (mkState (clubs st) (save player (players st)) (standings st) (users st)
           (N.succ (next_oid st)),
   [Db Save],
   Respond (mkResponse 201 (JsonPlayer (Some player)))).

Definition put_api_players_id (id : oid) : Middleware := fun _ st ctx =>
  let (players', player) :=
    findByIdAndUpdate Player._id id (Player.set (body ctx)) (players st) in
  (mkState (clubs st) players' (standings st) (users st) (next_oid st),
   [Db Update],
   Respond (res_json (JsonPlayer player))).

Definition delete_api_players_id (id : oid) : Middleware := fun _ st _ =>
  (mkState (clubs st) (findByIdAndDelete Player._id id (players st))
           (standings st) (users st) (next_oid st),
   [Db Remove],
   Respond (mkResponse 204 Empty)).

(** *** Standings *)

Definition post_api_standings : Middleware := fun _ st ctx =>
  let standing := Standing.create (next_oid st) (body ctx) in
  (mkState (clubs st) (players st) (save standing (standings st)) (users st)
           (N.succ (next_oid st)),
   [Db Save],
   Respond (mkResponse 201 (JsonStanding (Some standing)))).

Definition put_api_standings_id (id : oid) : Middleware := fun _ st ctx =>
  let (standings', standing) :=
    findByIdAndUpdate Standing._id id (Standing.set (body ctx)) (standings st) in
  (mkState (clubs st) (players st) standings' (users st) (next_oid st),
   [Db Update],
   Respond (res_json (JsonStanding standing))).

Definition delete_api_standings_id (id : oid) : Middleware := fun _ st _ =>
  (mkState (clubs st) (players st)
           (findByIdAndDelete Standing._id id (standings st))
           (users st) (next_oid st),
   [Db Remove],
   Respond (mkResponse 204 Empty)).

(** *** A path parameter that is no ObjectId

    [findByIdAndUpdate(req.params.id, ...)] and
    [findByIdAndDelete(req.params.id)] cast the id before any operation is
    sent; on a string that is no ObjectId the cast throws, in the PUT and
    DELETE handlers of the three resources alike. *)

Definition cast_error (raw : string) : Middleware := fun _ st _ =>
  (st, [], Reject "CastError").

(** *** The application *)

(** The stack registered for a method and a path ([app.get], [app.post],
    [app.put], [app.delete]); empty when no route matches. *)
Definition route (m : Method) (p : Path) : list Middleware :=
  match m, p with
  | GET, api_clubs => [get_api_clubs]
  | GET, api_players => [get_api_players]
  | GET, api_standings => [get_api_standings]
  | POST, api_register => [post_api_register]
  | POST, api_login => [post_api_login]
  | POST, api_clubs => [authenticateToken; post_api_clubs]
  | PUT, api_clubs_id id => [authenticateToken; put_api_clubs_id id]
  | DELETE, api_clubs_id id => [authenticateToken; delete_api_clubs_id id]
  | POST, api_players => [authenticateToken; post_api_players]
  | PUT, api_players_id id => [authenticateToken; put_api_players_id id]
  | DELETE, api_players_id id => [authenticateToken; delete_api_players_id id]
  | POST, api_standings => [authenticateToken; post_api_standings]
  | PUT, api_standings_id id => [authenticateToken; put_api_standings_id id]
  | DELETE, api_standings_id id => [authenticateToken; delete_api_standings_id id]
  | PUT, api_clubs_bad_id raw => [authenticateToken; cast_error raw]
  | DELETE, api_clubs_bad_id raw => [authenticateToken; cast_error raw]
  | PUT, api_players_bad_id raw => [authenticateToken; cast_error raw]
  | DELETE, api_players_bad_id raw => [authenticateToken; cast_error raw]
  | PUT, api_standings_bad_id raw => [authenticateToken; cast_error raw]
  | DELETE, api_standings_bad_id raw => [authenticateToken; cast_error raw]
  | _, _ => []
  end.

(** Layers run in order until one answers; a request no layer answers
    gets Express's 404. *)
Fixpoint run (stack : list Middleware) (env : Env) (st : State) (ctx : Ctx)
  : State * list Event * Outcome :=
  match stack with
  | [] => (st, [], Sent (mkResponse 404 (Text "Not Found")))
  | layer :: rest =>
      let '(st1, ev1, step) := layer env st ctx in
      match step with
      | Next ctx1 =>
          let '(st2, ev2, out) := run rest env st1 ctx1 in
          (st2, (ev1 ++ ev2)%list, out)
      | Respond r => (st1, ev1, Sent r)
      | Reject e => (st1, ev1, Unhandled e)
      end
  end.

Definition app (env : Env) (st : State) (r : Request)
  : State * list Event * Outcome :=
  run ([cors; express_json] ++ route (method r) (path r))%list env st (initial r).

(** The routes that change a resource collection. *)
Definition mutating (r : Request) : bool :=
  match method r, path r with
  | POST, api_clubs | POST, api_players | POST, api_standings => true
  | PUT, api_clubs_id _ | PUT, api_players_id _ | PUT, api_standings_id _ => true
  | DELETE, api_clubs_id _ | DELETE, api_players_id _
  | DELETE, api_standings_id _ => true
  | PUT, api_clubs_bad_id _ | PUT, api_players_bad_id _
  | PUT, api_standings_bad_id _ => true
  | DELETE, api_clubs_bad_id _ | DELETE, api_players_bad_id _
  | DELETE, api_standings_bad_id _ => true
  | _, _ => false
  end.

Definition status_of (o : Outcome) : option N :=
  match o with
  | Sent r => Some (status r)
  | Unhandled _ => None
  end.
(** A run of the application over a sequence of requests, each with the
    clock and salt of its arrival.  A handler that throws leaves an
    unhandled rejection, on which the process exits: the requests after it
    are not served. *)
Fixpoint serve (st : State) (rs : list (Env * Request))
  : State * list Outcome :=
  match rs with
  | [] => (st, [])
  | (env, r) :: rest =>
      let '(st1, _, out) := app env st r in
      match out with
      | Sent _ =>
          let (st2, outs) := serve st1 rest in
          (st2, out :: outs)
      | Unhandled _ => (st1, [out])
      end
  end.
End Server.

(** ** A transparent instance of the packages

    Stand-ins that satisfy the laws the theorems assume of jsonwebtoken and
    bcryptjs, so that the model runs on concrete requests.  A token spells
    out the key, the payload and the expiry in binary digits separated by
    dots; no secrecy is claimed of it. *)

Module Plain.
Definition digit (b : bool) : ascii := if b then "1"%char else "0"%char.

Definition undigit (c : ascii) : option bool :=
  if Ascii.eqb c "1" then Some true
  else if Ascii.eqb c "0" then Some false
  else None.

Definition byte_digits (a : ascii) (rest : string) : string :=
  match a with
  | Ascii b0 b1 b2 b3 b4 b5 b6 b7 =>
      String (digit b0) (String (digit b1) (String (digit b2) (String (digit b3)
      (String (digit b4) (String (digit b5) (String (digit b6) (String (digit b7)
       rest)))))))
  end.

Fixpoint enc_string (s : string) : string :=
  match s with
  | EmptyString => EmptyString
  | String a r => byte_digits a (enc_string r)
  end.

Fixpoint dec_string (s : string) : option string :=
  match s with
  | EmptyString => Some EmptyString
  | String c0 (String c1 (String c2 (String c3
    (String c4 (String c5 (String c6 (String c7 r))))))) =>
      match undigit c0, undigit c1, undigit c2, undigit c3,
            undigit c4, undigit c5, undigit c6, undigit c7, dec_string r with
      | Some b0, Some b1, Some b2, Some b3,
        Some b4, Some b5, Some b6, Some b7, Some r' =>
          Some (String (Ascii b0 b1 b2 b3 b4 b5 b6 b7) r')
      | _, _, _, _, _, _, _, _, _ => None
      end
  | _ => None
  end.

Fixpoint enc_positive (p : positive) : string :=
  match p with
  | xH => EmptyString
  | xO q => String "0" (enc_positive q)
  | xI q => String "1" (enc_positive q)
  end.

Fixpoint dec_positive (s : string) : option positive :=
  match s with
  | EmptyString => Some xH
  | String c r =>
      match undigit c, dec_positive r with
      | Some true, Some q => Some (xI q)
      | Some false, Some q => Some (xO q)
      | _, _ => None
      end
  end.

Definition enc_N (n : N) : string := enc_positive (N.succ_pos n).

Definition dec_N (s : string) : option N :=
  option_map Pos.pred_N (dec_positive s).

Definition enc_email (e : option string) : string :=
  match e with
  | None => "n"
  | Some s => String "s" (enc_string s)
  end.

Definition dec_email (s : string) : option (option string) :=
  match s with
  | String c r =>
      if Ascii.eqb c "n" then
        match r with EmptyString => Some None | _ => None end
      else if Ascii.eqb c "s" then option_map Some (dec_string r)
      else None
  | EmptyString => None
  end.

Definition dot : string := ".".

Definition sign (payload : Claims) (secret : string) (expiresIn now : N)
  : string :=
  enc_string secret ++ dot ++ enc_email (claim_email payload) ++ dot
  ++ enc_N (claim_id payload) ++ dot ++ enc_N (now + expiresIn).

Definition verify (token secret : string) (now : N) : option Claims :=
  match split "." token with
  | [k; e; i; x] =>
      match dec_string k, dec_email e, dec_N i, dec_N x with
      | Some k', Some e', Some i', Some x' =>
          if (k' =? secret) && (now <? x')%N then Some (mkClaims e' i')
          else None
      | _, _, _, _ => None
      end
  | _ => None
  end.

Definition hash (s : string) (rounds : N) (salt : string) : string :=
  "$plain$" ++ s ++ "$" ++ salt.

Definition compare (s hash : string) : bool :=
  String.prefix ("$plain$" ++ s ++ "$") hash.

#[export] Instance jwt : Jwt := {| jwt_sign := sign; jwt_verify := verify |}.

#[export] Instance bcrypt : Bcrypt :=
  {| bcrypt_hash := hash; bcrypt_compare := compare |}.

(** No [JWT_SECRET] in the environment: the fallback secret is used. *)
#[export] Instance process : ProcessEnv := {| env_JWT_SECRET := None |}.

Definition empty_db : State := mkState [] [] [] [] 0%N.

Definition credentials (email password : string) : Body.t :=
  Body.mk None None None None None None None None None None None None None
          (Some email) (Some password).

Definition standing_points (club : string) (points : option Z) : Body.t :=
  Body.mk None None None None (Some club) points None None None None None
          None None None None.

Definition club_named (name : string) (logo : option string) : Body.t :=
  Body.mk (Some name) logo None None None None None None None None None
          None None None None.

(** *** Sample requests *)

#[local] Open Scope N_scope.

Definition clock : Env := mkEnv 1000 "salt".
Definition later : Env := mkEnv 2000 "pepper".

Definition admin : Claims := mkClaims (Some "admin@club.example") 0.

(** The token a login of [admin] at time 1000 returns. *)
Definition admin_token : string := sign admin "changeme" one_day 1000.

Definition bearer : option string := Some ("Bearer " ++ admin_token).

Definition red_fc : Body.t := club_named "Red FC" None.

Definition post_club_no_token : Request :=
  mkRequest POST api_clubs None (Json red_fc).


Definition post_club_basic_scheme : Request :=
  mkRequest POST api_clubs (Some ("Basic " ++ admin_token)) (Json red_fc).

Definition post_club_bare_token : Request :=
  mkRequest POST api_clubs (Some admin_token) (Json red_fc).

Definition register_first : Request :=
  mkRequest POST api_register None (Json (credentials "a@club.example" "first")).

Definition register_second : Request :=
  mkRequest POST api_register None (Json (credentials "a@club.example" "second")).

Definition login_first : Request :=
  mkRequest POST api_login None (Json (credentials "a@club.example" "first")).

Definition login_second : Request :=
  mkRequest POST api_login None (Json (credentials "a@club.example" "second")).

Definition post_standing_with_points : Request :=
  mkRequest POST api_standings bearer
            (Json (standing_points "Red FC" (Some 3%Z))).

Definition post_standing_without_points : Request :=
  mkRequest POST api_standings bearer (Json (standing_points "Blue FC" None)).

Definition get_standings : Request := mkRequest GET api_standings None NoJson.

(** A store holding one club. *)
Definition one_club : State :=
  mkState [Club.mk 0 (Some "Red FC") None (Some "founded 2020") None]
          [] [] [] 1.

Definition put_club_logo : Request :=
  mkRequest PUT (api_clubs_id 0) bearer
            (Json (Body.mk None (Some "https://club.example/red.png") None
                           None None None None None None None None None None
                           None None)).

Definition put_club_unknown : Request :=
  mkRequest PUT (api_clubs_id 7) bearer (Json red_fc).

Definition delete_club (id : oid) : Request :=
  mkRequest DELETE (api_clubs_id id) bearer NoJson.

(* PUT and DELETE /api/clubs/abc: [abc] is not the text of an ObjectId *)
Definition put_club_bad_id : Request :=
  mkRequest PUT (api_clubs_bad_id "abc") bearer (Json red_fc).

Definition delete_club_bad_id : Request :=
  mkRequest DELETE (api_clubs_bad_id "abc") bearer NoJson.

Definition unauthorized : Outcome :=
  Sent (mkResponse 401 (Text "Unauthorized")).

Definition registered : Outcome :=
  Sent (mkResponse 201 (JsonMessage "User registered")).

(** The store after two standings were posted, the first without
    points. *)
Definition two_rows : State :=
  fst (serve empty_db [(clock, post_standing_without_points);
                       (clock, post_standing_with_points)]).
End Plain.

(** ** Notions the statements use *)

(** What express.json() leaves in the trace and in [req.body]. *)
Definition read_events (p : Payload) : list Event :=
  match p with
  | NoJson => []
  | BadJson | Json _ => [ReadBody]
  end.

Definition parsed_body (p : Payload) : Body.t :=
  match p with
  | Json b => b
  | NoJson | BadJson => Body.empty
  end.

Definition parses (p : Payload) : bool :=
  match p with
  | BadJson => false
  | NoJson | Json _ => true
  end.

(** The request carries a token that [jwt.verify] accepts at its arrival. *)
Definition authenticated `{Jwt} `{ProcessEnv} (env : Env) (r : Request) : bool :=
  match token_of (authorization r) with
  | Some t =>
      negb (t =? "")
      && match jwt_verify t JWT_SECRET (now env) with
         | Some _ => true
         | None => false
         end
  | None => false
  end.



(** The update contract of one path, in the words of the specification: a
    path present in the payload takes the payload's value, an absent one
    keeps the stored value. *)
Definition updates_path {A} (sent stored result : option A) : Prop :=
  match sent with
  | Some v => result = Some v
  | None => result = stored
  end.

(** The identifiers stored in the collection a path addresses. *)
Definition ids_at (p : Path) (st : State) : list oid :=
  match p with
  | api_clubs | api_clubs_id _ | api_clubs_bad_id _ =>
      map Club._id (clubs st)
  | api_players | api_players_id _ | api_players_bad_id _ =>
      map Player._id (players st)
  | api_standings | api_standings_id _ | api_standings_bad_id _ =>
      map Standing._id (standings st)
  | api_register | api_login => map User._id (users st)
  end.

Definition id_of_path (p : Path) : option oid :=
  match p with
  | api_clubs_id id | api_players_id id | api_standings_id id => Some id
  | _ => None
  end.

(** The path carries no parameter that fails to cast. *)
Definition castable (p : Path) : bool :=
  match p with
  | api_clubs_bad_id _ | api_players_bad_id _ | api_standings_bad_id _ => false
  | _ => true
  end.

(** JSON [null] in a document position. *)
Definition is_null (c : Content) : bool :=
  match c with
  | JsonClub None | JsonPlayer None | JsonStanding None => true
  | _ => false
  end.

(** Rows in the order of [sort({ points: -1 })]. *)
Definition by_points_desc (a b : Standing.doc) : Prop :=
  points_geb (Standing.points a) (Standing.points b) = true.

(** Identifiers drawn from the counter, once each. *)
Definition fresh_ids (next : oid) (ids : list oid) : Prop :=
  NoDup ids /\ forall id, In id ids -> (id < next)%N.

Definition ids_fresh (st : State) : Prop :=
  fresh_ids (next_oid st) (map Club._id (clubs st))
  /\ fresh_ids (next_oid st) (map Player._id (players st))
  /\ fresh_ids (next_oid st) (map Standing._id (standings st))
  /\ fresh_ids (next_oid st) (map User._id (users st)).

(** ** Routes and handlers outside the resource API *)

(** The collection a path addresses. *)
Inductive Collection : Type := Clubs | Players | Standings | Users.

Definition collection (p : Path) : option Collection :=
  match p with
  | api_clubs | api_clubs_id _ | api_clubs_bad_id _ => Some Clubs
  | api_players | api_players_id _ | api_players_bad_id _ => Some Players
  | api_standings | api_standings_id _ | api_standings_bad_id _ =>
      Some Standings
  | api_register => Some Users
  | api_login => None
  end.

(** axios.  [axios_get url] is [await axios.get(url)]: the [data] of the
    response, or the [message] of the error thrown. *)
Class Axios : Type := {
  axios_get : string -> json + string
}.

Module Ea.
(** What GET /api/ea/clubdetails answers with. *)
Inductive Content : Type :=
| Data (data : json)
| Error (error : string) (details : option string).

Record Response : Type := mk {
  status : N;
  content : Content
}.

(** The url of the upstream request. *)
Definition url (platform clubId : string) : string :=
  "https://proclubs.ea.com/api/clubdetails?platform=" ++ platform
  ++ "&clubId=" ++ clubId.

(** The handler of GET /api/ea/clubdetails, on the query parameters
    [platform] and [clubId] (each given once, or absent); it returns the
    urls requested upstream and the response. *)
Definition clubdetails `{Axios} (platform clubId : option string)
  : list string * Response :=
  if negb (truthy_string platform) || negb (truthy_string clubId)
  then ([], mk 400 (Error "Missing platform or clubId" None))
  else
    match platform, clubId with
    | Some p, Some c =>
        match axios_get (url p c) with
        | inl data => ([url p c], mk 200 (Data data))
        | inr message => ([url p c], mk 500 (Error "EA API error" (Some message)))
        end
    | _, _ => ([], mk 400 (Error "Missing platform or clubId" None))
    end.
End Ea.

(** discord-bot.js *)
Module Bot.
Record Message : Type := mk {
  author_bot : bool;       (* message.author.bot *)
  content : string         (* message.content *)
}.

(** The [messageCreate] listener: the replies it sends. *)
Definition messageCreate (message : Message) : list string :=
  if author_bot message then []
  else if content message =? "!ping" then ["Pong!"]
  else [].
End Bot.

(** Further sample requests, and an upstream that is down. *)
Module Sample.
Definition get_clubs : Request := mkRequest GET api_clubs None NoJson.

Definition post_club : Request :=
  mkRequest POST api_clubs Plain.bearer (Json Plain.red_fc).

Definition post_player : Request :=
  mkRequest POST api_players Plain.bearer (Json Plain.red_fc).

Definition login_unknown : Request :=
  mkRequest POST api_login None
            (Json (Plain.credentials "nobody@club.example" "first")).

Definition expired : Env := mkEnv 90000 "salt".

#[export] Instance offline : Axios :=
  {| axios_get := fun _ => inr "getaddrinfo ENOTFOUND proclubs.ea.com" |}.

(** The store after one registration. *)
Definition one_user : State :=
  fst (@serve Plain.jwt Plain.bcrypt Plain.process Plain.empty_db
              [(Plain.clock, Plain.register_first)]).



(** The standings of [Plain.two_rows], stored in the opposite order. *)
Definition two_rows_reversed : State :=
  mkState [] [] (rev (standings Plain.two_rows)) [] 2%N.
End Sample.

(** ** Strings and the Authorization header *)

Lemma split_no_sep (sep : ascii) (s : string) :
  no_char sep s = true -> split sep s = [s].
Proof.
  induction s as [|c r IH]; simpl; [reflexivity|].
  intros H. apply andb_true_iff in H as [Hc Hr].
  apply negb_true_iff in Hc. rewrite Hc, (IH Hr). reflexivity.
Qed.

Lemma split_app_sep (sep : ascii) (a r : string) :
  no_char sep a = true -> split sep (a ++ String sep r) = a :: split sep r.
Proof.
  induction a as [|c a IH]; simpl.
  - intros _. now rewrite Ascii.eqb_refl.
  - intros H. apply andb_true_iff in H as [Hc Ha].
    apply negb_true_iff in Hc. rewrite Hc, (IH Ha). reflexivity.
Qed.

Lemma append_sep_nonempty (a : string) (c : ascii) (r : string) :
  (a ++ String c r =? "") = false.
Proof. destruct a; reflexivity. Qed.

Lemma token_of_absent : token_of None = None.
Proof. reflexivity. Qed.

Lemma token_of_scheme (s t : string) :
  no_char " " s = true -> no_char " " t = true ->
  token_of (Some (s ++ " " ++ t)) = Some t.
Proof.
  intros Hs Ht. unfold token_of. simpl.
  rewrite append_sep_nonempty. simpl.
  rewrite (split_app_sep " " s t Hs), (split_no_sep " " t Ht). reflexivity.
Qed.

Lemma token_of_one_word (h : string) :
  no_char " " h = true -> truthy_string (token_of (Some h)) = false.
Proof.
  intros Hh. unfold token_of. simpl.
  destruct (h =? "") eqn:E; simpl.
  - now rewrite E.
  - now rewrite (split_no_sep " " h Hh).
Qed.

(** ** The middleware chain *)

Section Chain.
Context {jwt : Jwt} {bcrypt : Bcrypt} {process : ProcessEnv}.

Lemma authenticateToken_no_token env st ctx :
  truthy_string (token_of (authorization (req ctx))) = false ->
  authenticateToken env st ctx = (st, [], Respond (res_sendStatus 401)).
Proof. intros H. unfold authenticateToken. now rewrite H. Qed.

Lemma authenticateToken_rejected env st ctx t :
  token_of (authorization (req ctx)) = Some t -> t <> "" ->
  jwt_verify t JWT_SECRET (now env) = None ->
  authenticateToken env st ctx
  = (st, [VerifyToken t], Respond (res_sendStatus 403)).
Proof.
  intros Ht Hne Hv. unfold authenticateToken. rewrite Ht. simpl.
  apply String.eqb_neq in Hne. rewrite Hne. simpl. now rewrite Hv.
Qed.

Lemma authenticateToken_accepted env st ctx t u :
  token_of (authorization (req ctx)) = Some t -> t <> "" ->
  jwt_verify t JWT_SECRET (now env) = Some u ->
  authenticateToken env st ctx
  = (st, [VerifyToken t], Next (mkCtx (req ctx) (body ctx) (Some u))).
Proof.
  intros Ht Hne Hv. unfold authenticateToken. rewrite Ht. simpl.
  apply String.eqb_neq in Hne. rewrite Hne. simpl. now rewrite Hv.
Qed.

Lemma authenticated_inv env r :
  authenticated env r = true ->
  exists t u, token_of (authorization r) = Some t /\ t <> ""
              /\ jwt_verify t JWT_SECRET (now env) = Some u.
Proof.
  unfold authenticated. destruct (token_of (authorization r)) as [t|]; [|discriminate].
  intros H. apply andb_true_iff in H as [Hne Hv].
  destruct (jwt_verify t JWT_SECRET (now env)) as [u|] eqn:E; [|discriminate].
  exists t, u. repeat split; trivial.
  apply negb_true_iff in Hne. now apply String.eqb_neq.
Qed.

(** The two global layers: a body that does not parse is answered at
    once, any other request reaches its route with [req.body] set. *)
Lemma app_bad_json env st r :
  payload r = BadJson ->
  app env st r = (st, [ReadBody], Sent (mkResponse 400 (Text "Bad Request"))).
Proof. intros H. unfold app. simpl. unfold express_json. simpl. now rewrite H. Qed.

Lemma app_parsed env st r :
  parses (payload r) = true ->
  app env st r
  = let '(st', ev, out) :=
      run (route (method r) (path r)) env st
          (mkCtx r (parsed_body (payload r)) None) in
    (st', (read_events (payload r) ++ ev)%list, out).
Proof.
  intros H. unfold app. simpl. unfold express_json. simpl.
  destruct (payload r); try discriminate; simpl;
    destruct (run _ _ _ _) as [[st' ev] out]; reflexivity.
Qed.
End Chain.

(** ** Authentication of the mutating routes *)

Section Gate.
Context {jwt : Jwt} {bcrypt : Bcrypt} {process : ProcessEnv}.

(** Every mutating route is [authenticateToken] followed by one handler;
    that handler issues one database operation and answers 200, 201 or
    204, unless the path parameter fails to cast: then it throws before
    any operation. *)
Lemma route_mutating r :
  mutating r = true ->
  exists h, route (method r) (path r) = [authenticateToken; h]
            /\ forall env st ctx,
                 (castable (path r) = true ->
                  exists st' op res,
                    h env st ctx = (st', [Db op], Respond res)
                    /\ In (status res) [200; 201; 204]%N)
                 /\ (castable (path r) = false ->
                     h env st ctx = (st, [], Reject "CastError")).
Proof.
  destruct r as [m p a pl]. unfold mutating. simpl.
  destruct m, p; try discriminate; intros _;
    (eexists; split; [reflexivity|]); intros env st ctx;
    (split; intros Hc; try discriminate; try reflexivity).
  all: try (do 3 eexists; split; [reflexivity|simpl; tauto]).
  - unfold put_api_clubs_id.
    destruct (findByIdAndUpdate _ _ _ _); do 3 eexists;
      split; [reflexivity|simpl; tauto].
  - unfold put_api_players_id.
    destruct (findByIdAndUpdate _ _ _ _); do 3 eexists;
      split; [reflexivity|simpl; tauto].
  - unfold put_api_standings_id.
    destruct (findByIdAndUpdate _ _ _ _); do 3 eexists;
      split; [reflexivity|simpl; tauto].
Qed.

Lemma app_mutating_no_token env st r :
  mutating r = true -> parses (payload r) = true ->
  truthy_string (token_of (authorization r)) = false ->
  app env st r = (st, read_events (payload r), Sent (res_sendStatus 401)).
Proof.
  intros Hm Hp Ht. rewrite (app_parsed _ _ _ Hp).
  destruct (route_mutating r Hm) as [h [-> _]]. simpl.
  rewrite authenticateToken_no_token by exact Ht.
  now rewrite app_nil_r.
Qed.

Lemma app_mutating_rejected env st r t :
  mutating r = true -> parses (payload r) = true ->
  token_of (authorization r) = Some t -> t <> "" ->
  jwt_verify t JWT_SECRET (now env) = None ->
  app env st r
  = (st, (read_events (payload r) ++ [VerifyToken t])%list,
     Sent (res_sendStatus 403)).
Proof.
  intros Hm Hp Ht Hne Hv. rewrite (app_parsed _ _ _ Hp).
  destruct (route_mutating r Hm) as [h [-> _]]. simpl.
  now rewrite (authenticateToken_rejected env st (mkCtx r (parsed_body (payload r)) None) t Ht Hne Hv).
Qed.

(** An authenticated request reaches its handler. *)
Lemma app_mutating_accepted env st r t u :
  parses (payload r) = true ->
  token_of (authorization r) = Some t -> t <> "" ->
  jwt_verify t JWT_SECRET (now env) = Some u ->
  forall h, route (method r) (path r) = [authenticateToken; h] ->
  app env st r
  = let '(st', ev, step) :=
      h env st (mkCtx r (parsed_body (payload r)) (Some u)) in
    (st', (read_events (payload r) ++ VerifyToken t :: ev)%list,
     match step with
     | Next _ => Sent (mkResponse 404 (Text "Not Found"))
     | Respond res => Sent res
     | Reject e => Unhandled e
     end).
Proof.
  intros Hp Ht Hne Hv h Hr. rewrite (app_parsed _ _ _ Hp), Hr. simpl.
  rewrite (authenticateToken_accepted env st (mkCtx r (parsed_body (payload r)) None) t u Ht Hne Hv). simpl.
  destruct (h env st _) as [[st' ev] step].
  destruct step; simpl; rewrite ?app_nil_r; reflexivity.
Qed.


(** An accepted token on a path whose parameter casts: the handler runs
    its one operation and answers. *)
Lemma app_mutating_answered env st r t u :
  mutating r = true -> parses (payload r) = true ->
  token_of (authorization r) = Some t -> t <> "" ->
  jwt_verify t JWT_SECRET (now env) = Some u ->
  castable (path r) = true ->
  exists st' op res,
    app env st r
    = (st', (read_events (payload r) ++ [VerifyToken t; Db op])%list, Sent res)
    /\ In (status res) [200; 201; 204]%N.
Proof.
  intros Hm Hp Ht Hne Hv Hc.
  destruct (route_mutating r Hm) as [h [Hr Hh]].
  destruct (proj1 (Hh env st (mkCtx r (parsed_body (payload r)) (Some u))) Hc)
    as [st' [op [res [Eh Hs]]]].
  exists st', op, res. split; [|exact Hs].
  rewrite (app_mutating_accepted env st r t u Hp Ht Hne Hv h Hr), Eh.
  reflexivity.
Qed.

(** An accepted token on a path whose parameter does not cast: the handler
    throws after verification, before any operation; nothing is sent. *)
Lemma app_mutating_cast_error env st r t u :
  mutating r = true -> parses (payload r) = true ->
  token_of (authorization r) = Some t -> t <> "" ->
  jwt_verify t JWT_SECRET (now env) = Some u ->
  castable (path r) = false ->
  app env st r
  = (st, (read_events (payload r) ++ [VerifyToken t])%list,
     Unhandled "CastError").
Proof.
  intros Hm Hp Ht Hne Hv Hc.
  destruct (route_mutating r Hm) as [h [Hr Hh]].
  rewrite (app_mutating_accepted env st r t u Hp Ht Hne Hv h Hr).
  now rewrite (proj2 (Hh env st (mkCtx r (parsed_body (payload r)) (Some u))) Hc).
Qed.


(** The four ways a request to a mutating route can go once its body
    parsed. *)
Lemma app_mutating_cases env st r :
  mutating r = true -> parses (payload r) = true ->
  app env st r = (st, read_events (payload r), Sent (res_sendStatus 401))
  \/ (exists t,
        app env st r
        = (st, (read_events (payload r) ++ [VerifyToken t])%list,
           Sent (res_sendStatus 403)))
  \/ (exists t st' op res,
        app env st r
        = (st', (read_events (payload r) ++ [VerifyToken t; Db op])%list,
           Sent res)
        /\ authenticated env r = true
        /\ In (status res) [200; 201; 204]%N)
  \/ (exists t,
        app env st r
        = (st, (read_events (payload r) ++ [VerifyToken t])%list,
           Unhandled "CastError")
        /\ authenticated env r = true).
Proof.
  intros Hm Hp.
  destruct (truthy_string (token_of (authorization r))) eqn:Et.
  - destruct (token_of (authorization r)) as [t|] eqn:Ht; [|discriminate].
    simpl in Et. apply negb_true_iff in Et.
    assert (Hne : t <> "") by now apply String.eqb_neq.
    destruct (jwt_verify t JWT_SECRET (now env)) as [u|] eqn:Hv.
    + assert (Ha : authenticated env r = true)
        by (unfold authenticated; now rewrite Ht, Et, Hv).
      destruct (castable (path r)) eqn:Hc.
      * right; right; left.
        destruct (app_mutating_answered env st r t u Hm Hp Ht Hne Hv Hc)
          as [st' [op [res [E Hs]]]].
        exists t, st', op, res. repeat split; trivial.
      * right; right; right. exists t. split; [|exact Ha].
        now apply (app_mutating_cast_error env st r t u).
    + right; left. exists t. now apply app_mutating_rejected.
  - left. now apply app_mutating_no_token.
Qed.

(** C2, as the code has it.  express.json() is registered with [app.use]
    before every route, so the body of a request to a mutating route is
    read and parsed before [authenticateToken] runs, also when the request
    is then rejected.  For every request to a mutating route that is
    answered 401 or 403: the trace is the body read (exactly when the
    request carries a JSON body) followed only by token verification, no
    database operation ran, and the store is unchanged; the parsed body is
    never used. *)
Theorem rejected_request_body_read_but_unused env st r st' ev out :
  mutating r = true ->
  app env st r = (st', ev, out) ->
  status_of out = Some 401%N \/ status_of out = Some 403%N ->
  st' = st
  /\ (forall op, ~ In (Db op) ev)
  /\ (In ReadBody ev <-> payload r <> NoJson)
  /\ exists checks,
       ev = (read_events (payload r) ++ checks)%list
       /\ forall e, In e checks -> exists t, e = VerifyToken t.
Proof.
  intros Hm Happ Hst.
  destruct (parses (payload r)) eqn:Hp.
  2:{ destruct (payload r) eqn:Epl; try discriminate.
      rewrite (app_bad_json env st r Epl) in Happ.
      injection Happ as <- <- <-. simpl in Hst.
      destruct Hst; discriminate. }
  assert (Hread : forall checks,
             (forall e, In e checks -> exists t, e = VerifyToken t) ->
             (In ReadBody (read_events (payload r) ++ checks) <-> payload r <> NoJson)).
  { intros checks Hc. rewrite in_app_iff. split.
    - intros [H|H]; [|apply Hc in H as [t H]; discriminate].
      intros E. rewrite E in H. destruct H.
    - intros Hn. left. destruct (payload r); simpl; tauto. }
  destruct (app_mutating_cases env st r Hm Hp)
    as [E|[[t E]|[[t [st1 [op [res [E [_ Hs]]]]]]|[t [E _]]]]];
    rewrite E in Happ; injection Happ as <- <- <-.
  - assert (Hc : forall e, In e (@nil Event) -> exists t, e = VerifyToken t)
      by (intros e []).
    repeat split.
    + intros op H. destruct (payload r); simpl in H;
        repeat (destruct H as [H|H]; try discriminate); trivial.
    + intros H. apply (Hread [] Hc). now rewrite app_nil_r.
    + intros H. apply (Hread [] Hc) in H. now rewrite app_nil_r in H.
    + exists []. split; [now rewrite app_nil_r|exact Hc].
  - assert (Hc : forall e, In e [VerifyToken t] -> exists t, e = VerifyToken t)
      by (intros e [<-|[]]; eauto).
    repeat split.
    + intros op H. apply in_app_iff in H as [H|H].
      * destruct (payload r); simpl in H;
          repeat (destruct H as [H|H]; try discriminate); trivial.
      * apply Hc in H as [t' H]. discriminate.
    + apply (Hread _ Hc).
    + apply (Hread _ Hc).
    + exists [VerifyToken t]. split; [reflexivity|exact Hc].
  - exfalso. simpl in Hst, Hs.
    destruct Hst as [H|H]; injection H as H; rewrite H in Hs;
      repeat (destruct Hs as [Hs|Hs]; try discriminate); trivial.
  - exfalso. simpl in Hst. destruct Hst; discriminate.
Qed.

(** C10.  [authenticateToken] takes the second space-separated word of
    the Authorization header as the token and never looks at the first:
    with any scheme word [s] before a token [t] that [jwt.verify] accepts,
    the request to a mutating route passes authentication, is answered
    neither 401 nor 403, and its handler runs (answering 200, 201 or 204
    when the path parameter casts); a header of one word only, such as
    the bare token, counts as a missing token and is answered 401. *)
Theorem authorization_scheme_not_checked :
  (forall env st r s t u,
      mutating r = true -> parses (payload r) = true ->
      authorization r = Some (s ++ " " ++ t) ->
      no_char " " s = true -> no_char " " t = true -> t <> "" ->
      jwt_verify t JWT_SECRET (now env) = Some u ->
      authenticateToken env st (mkCtx r (parsed_body (payload r)) None)
      = (st, [VerifyToken t], Next (mkCtx r (parsed_body (payload r)) (Some u)))
      /\ exists st' ev out,
          app env st r
          = (st', (read_events (payload r) ++ VerifyToken t :: ev)%list, out)
          /\ status_of out <> Some 401%N
          /\ status_of out <> Some 403%N
          /\ (castable (path r) = true ->
              exists op res,
                ev = [Db op] /\ out = Sent res
                /\ In (status res) [200; 201; 204]%N))
  /\ (forall env st r h,
      mutating r = true -> parses (payload r) = true ->
      authorization r = Some h -> no_char " " h = true ->
      app env st r
      = (st, read_events (payload r),
         Sent (mkResponse 401 (Text "Unauthorized")))).
Proof.
  split.
  - intros env st r s t u Hm Hp Ha Hs Ht Hne Hv.
    assert (Htok : token_of (authorization r) = Some t)
      by (rewrite Ha; now apply token_of_scheme).
    split; [now apply authenticateToken_accepted|].
    destruct (castable (path r)) eqn:Hc.
    + destruct (app_mutating_answered env st r t u Hm Hp Htok Hne Hv Hc)
        as [st' [op [res [E Hst]]]].
      exists st', [Db op], (Sent res). split; [exact E|].
      simpl in Hst |- *.
      repeat split;
        try (intros H; injection H as H; rewrite H in Hst;
             repeat (destruct Hst as [Hst|Hst]; try discriminate); assumption).
      intros _. exists op, res. repeat split; assumption.
    + exists st, [], (Unhandled "CastError").
      split; [now apply (app_mutating_cast_error env st r t u)|].
      repeat split; try discriminate.
  - intros env st r h Hm Hp Ha Hh.
    apply app_mutating_no_token; trivial.
    rewrite Ha. now apply token_of_one_word.
Qed.
End Gate.

(** ** The standings table *)

Lemma points_geb_total (a b : option Z) :
  points_geb a b = false -> points_geb b a = true.
Proof.
  destruct a as [x|], b as [y|]; simpl; try discriminate; trivial.
  intros H. apply Z.leb_gt in H. apply Z.leb_le. lia.
Qed.

Lemma points_geb_trans (a b c : option Z) :
  points_geb a b = true -> points_geb b c = true -> points_geb a c = true.
Proof.
  destruct a as [x|], b as [y|], c as [z|]; simpl; try discriminate; trivial.
  intros H1 H2. apply Z.leb_le in H1, H2. apply Z.leb_le. lia.
Qed.

Lemma insert_by_points_perm (d : Standing.doc) (c : list Standing.doc) :
  Permutation (insert_by_points d c) (d :: c).
Proof.
  induction c as [|e r IH]; simpl; [reflexivity|].
  destruct (points_geb _ _); [reflexivity|].
  rewrite IH. apply perm_swap.
Qed.

Lemma sort_points_desc_perm (c : list Standing.doc) :
  Permutation (sort_points_desc c) c.
Proof.
  induction c as [|d r IH]; simpl; [reflexivity|].
  rewrite insert_by_points_perm. now constructor.
Qed.

Lemma insert_by_points_sorted (d : Standing.doc) (c : list Standing.doc) :
  StronglySorted by_points_desc c ->
  StronglySorted by_points_desc (insert_by_points d c).
Proof.
  induction 1 as [|e r Hs IH He]; simpl.
  - repeat constructor.
  - destruct (points_geb (Standing.points d) (Standing.points e)) eqn:E.
    + constructor; [now constructor|].
      constructor; [exact E|].
      rewrite Forall_forall in He |- *. intros x Hx.
      unfold by_points_desc in *. eapply points_geb_trans; eauto.
    + constructor; [exact IH|].
      rewrite Forall_forall in He |- *. intros x Hx.
      apply (Permutation_in _ (insert_by_points_perm d r)) in Hx.
      destruct Hx as [<-|Hx]; [now apply points_geb_total|now apply He].
Qed.

Lemma sort_points_desc_sorted (c : list Standing.doc) :
  StronglySorted by_points_desc (sort_points_desc c).
Proof.
  induction c as [|d r IH]; simpl; [constructor|].
  now apply insert_by_points_sorted.
Qed.



Section Table.
Context {jwt : Jwt} {bcrypt : Bcrypt} {process : ProcessEnv}.

Lemma app_get_standings env st r :
  method r = GET -> path r = api_standings -> parses (payload r) = true ->
  app env st r
  = (st, (read_events (payload r) ++ [Db Find])%list,
     Sent (res_json (JsonRows (map mapped (sort_points_desc (standings st)))))).
Proof.
  intros Hm Hpath Hp. rewrite (app_parsed _ _ _ Hp), Hm, Hpath. reflexivity.
Qed.


(** C9.  In every response of GET /api/standings, for every state of the
    standings store, the logo of every returned row is the empty string:
    the Standing schema declares no logo path, so [row.logo] reads
    [undefined] and [row.logo || ''] is [''].  A request whose body parses
    is answered with one such row per stored row. *)
Theorem standings_logo_always_empty env st r :
  method r = GET -> path r = api_standings ->
  (forall st' ev res rows,
      app env st r = (st', ev, Sent res) -> content res = JsonRows rows ->
      forall row, In row rows -> Row.logo row = Str "")
  /\ (parses (payload r) = true ->
      exists rows,
        app env st r
        = (st, (read_events (payload r) ++ [Db Find])%list,
           Sent (res_json (JsonRows rows)))
        /\ List.length rows = List.length (standings st)).
Proof.
  intros Hm Hpath. split.
  - intros st' ev res rows Happ Hc row Hin.
    destruct (parses (payload r)) eqn:Hp.
    + rewrite (app_get_standings env st r Hm Hpath Hp) in Happ.
      injection Happ as _ _ <-. simpl in Hc. injection Hc as <-.
      apply in_map_iff in Hin as [d [<- _]]. reflexivity.
    + destruct (payload r) eqn:E; try discriminate.
      rewrite (app_bad_json env st r E) in Happ.
      injection Happ as _ _ <-. discriminate.
  - intros Hp. eexists. split; [now apply app_get_standings|].
    rewrite List.length_map.
    apply Permutation_length, sort_points_desc_perm.
Qed.
End Table.

(** ** Collections *)

Section CollectionFacts.
Context {D : Type} (id_of : D -> oid).

Lemma findByIdAndUpdate_absent id update c :
  ~ In id (map id_of c) -> findByIdAndUpdate id_of id update c = (c, None).
Proof.
  induction c as [|d r IH]; simpl; [reflexivity|].
  intros H. destruct (N.eqb_spec (id_of d) id) as [E|E]; [tauto|].
  rewrite IH by tauto. reflexivity.
Qed.

Lemma findByIdAndUpdate_present id update pre d post :
  id_of d = id -> ~ In id (map id_of pre) ->
  findByIdAndUpdate id_of id update (pre ++ d :: post)
  = ((pre ++ update d :: post)%list, Some (update d)).
Proof.
  intros Hd. induction pre as [|e r IH]; simpl.
  - intros _. now rewrite Hd, N.eqb_refl.
  - intros H. destruct (N.eqb_spec (id_of e) id) as [E|E]; [tauto|].
    rewrite IH by tauto. reflexivity.
Qed.

Lemma findByIdAndDelete_absent id c :
  ~ In id (map id_of c) -> findByIdAndDelete id_of id c = c.
Proof.
  induction c as [|d r IH]; simpl; [reflexivity|].
  intros H. destruct (N.eqb_spec (id_of d) id) as [E|E]; [tauto|].
  rewrite IH by tauto. reflexivity.
Qed.

Lemma findByIdAndDelete_present id pre d post :
  id_of d = id -> ~ In id (map id_of pre) ->
  findByIdAndDelete id_of id (pre ++ d :: post) = (pre ++ post)%list.
Proof.
  intros Hd. induction pre as [|e r IH]; simpl.
  - intros _. now rewrite Hd, N.eqb_refl.
  - intros H. destruct (N.eqb_spec (id_of e) id) as [E|E]; [tauto|].
    rewrite IH by tauto. reflexivity.
Qed.

Lemma findByIdAndDelete_incl id c x :
  In x (map id_of (findByIdAndDelete id_of id c)) -> In x (map id_of c).
Proof.
  induction c as [|d r IH]; simpl; [tauto|].
  destruct (N.eqb_spec (id_of d) id) as [E|E]; simpl; tauto.
Qed.

Lemma findByIdAndDelete_NoDup id c :
  NoDup (map id_of c) -> NoDup (map id_of (findByIdAndDelete id_of id c)).
Proof.
  induction c as [|d r IH]; simpl; [trivial|].
  intros H. inversion H as [|x l Hx Hl]; subst.
  destruct (N.eqb_spec (id_of d) id) as [E|E]; simpl; [exact Hl|].
  constructor; [|now apply IH].
  intros Hin. apply Hx. now apply findByIdAndDelete_incl in Hin.
Qed.

(** With identifiers stored once, a deleted identifier is gone. *)
Lemma findByIdAndDelete_gone id c :
  NoDup (map id_of c) -> ~ In id (map id_of (findByIdAndDelete id_of id c)).
Proof.
  induction c as [|d r IH]; simpl; [tauto|].
  intros H. inversion H as [|x l Hx Hl]; subst.
  destruct (N.eqb_spec (id_of d) id) as [E|E]; simpl.
  - now rewrite <- E.
  - intros [H'|H']; [tauto|]. now apply IH in H'.
Qed.

Lemma findByIdAndUpdate_ids id update c :
  (forall d, id_of (update d) = id_of d) ->
  map id_of (fst (findByIdAndUpdate id_of id update c)) = map id_of c.
Proof.
  intros Hu. induction c as [|d r IH]; simpl; [reflexivity|].
  destruct (N.eqb_spec (id_of d) id) as [E|E]; simpl.
  - now rewrite Hu.
  - destruct (findByIdAndUpdate id_of id update r). simpl in *. now rewrite IH.
Qed.
End CollectionFacts.

Lemma updates_path_set_path {A} (sent stored : option A) :
  updates_path sent stored (set_path sent stored).
Proof. destruct sent; reflexivity. Qed.

(** ** Update and delete *)

Section Resources.
Context {jwt : Jwt} {bcrypt : Bcrypt} {process : ProcessEnv}.

(** An authenticated request whose body parsed, seen from its handler. *)
Lemma app_authenticated env st r h :
  parses (payload r) = true -> authenticated env r = true ->
  route (method r) (path r) = [authenticateToken; h] ->
  exists t u,
    token_of (authorization r) = Some t
    /\ jwt_verify t JWT_SECRET (now env) = Some u
    /\ app env st r
       = let '(st', ev, step) :=
           h env st (mkCtx r (parsed_body (payload r)) (Some u)) in
         (st', (read_events (payload r) ++ VerifyToken t :: ev)%list,
          match step with
          | Next _ => Sent (mkResponse 404 (Text "Not Found"))
          | Respond res => Sent res
          | Reject e => Unhandled e
          end).
Proof.
  intros Hp Ha Hr. destruct (authenticated_inv env r Ha) as [t [u [Ht [Hne Hv]]]].
  exists t, u. repeat split; trivial.
  now apply app_mutating_accepted.
Qed.

Lemma put_club_present env st r id pre c post :
  method r = PUT -> path r = api_clubs_id id ->
  parses (payload r) = true -> authenticated env r = true ->
  clubs st = (pre ++ c :: post)%list ->
  Club._id c = id -> ~ In id (map Club._id pre) ->
  exists t,
    app env st r
    = (mkState (pre ++ Club.set (parsed_body (payload r)) c :: post)
               (players st) (standings st) (users st) (next_oid st),
       (read_events (payload r) ++ [VerifyToken t; Db Update])%list,
       Sent (res_json (JsonClub (Some (Club.set (parsed_body (payload r)) c))))).
Proof.
  intros Hm Hpath Hp Ha Hc Hid Hpre.
  destruct (app_authenticated env st r (put_api_clubs_id id) Hp Ha)
    as [t [u [_ [_ E]]]]; [now rewrite Hm, Hpath|].
  exists t. rewrite E. unfold put_api_clubs_id. simpl.
  rewrite Hc, (findByIdAndUpdate_present Club._id id _ pre c post Hid Hpre).
  reflexivity.
Qed.

Lemma put_player_present env st r id pre c post :
  method r = PUT -> path r = api_players_id id ->
  parses (payload r) = true -> authenticated env r = true ->
  players st = (pre ++ c :: post)%list ->
  Player._id c = id -> ~ In id (map Player._id pre) ->
  exists t,
    app env st r
    = (mkState (clubs st)
               (pre ++ Player.set (parsed_body (payload r)) c :: post)
               (standings st) (users st) (next_oid st),
       (read_events (payload r) ++ [VerifyToken t; Db Update])%list,
       Sent (res_json (JsonPlayer (Some (Player.set (parsed_body (payload r)) c))))).
Proof.
  intros Hm Hpath Hp Ha Hc Hid Hpre.
  destruct (app_authenticated env st r (put_api_players_id id) Hp Ha)
    as [t [u [_ [_ E]]]]; [now rewrite Hm, Hpath|].
  exists t. rewrite E. unfold put_api_players_id. simpl.
  rewrite Hc, (findByIdAndUpdate_present Player._id id _ pre c post Hid Hpre).
  reflexivity.
Qed.

Lemma put_standing_present env st r id pre c post :
  method r = PUT -> path r = api_standings_id id ->
  parses (payload r) = true -> authenticated env r = true ->
  standings st = (pre ++ c :: post)%list ->
  Standing._id c = id -> ~ In id (map Standing._id pre) ->
  exists t,
    app env st r
    = (mkState (clubs st) (players st)
               (pre ++ Standing.set (parsed_body (payload r)) c :: post)
               (users st) (next_oid st),
       (read_events (payload r) ++ [VerifyToken t; Db Update])%list,
       Sent (res_json
               (JsonStanding (Some (Standing.set (parsed_body (payload r)) c))))).
Proof.
  intros Hm Hpath Hp Ha Hc Hid Hpre.
  destruct (app_authenticated env st r (put_api_standings_id id) Hp Ha)
    as [t [u [_ [_ E]]]]; [now rewrite Hm, Hpath|].
  exists t. rewrite E. unfold put_api_standings_id. simpl.
  rewrite Hc, (findByIdAndUpdate_present Standing._id id _ pre c post Hid Hpre).
  reflexivity.
Qed.
(** C5.  For every stored record and every partial payload, an
    authenticated PUT on the record's id (clubs, players and standings
    alike) gives every path present in the payload the payload's value,
    leaves every path absent from the payload at its stored value, keeps
    the identifier, leaves every other record of the collection and the
    other collections as they were, and answers 200 with the updated
    record. *)
Theorem update_changes_only_supplied_fields :
  (forall env st r id pre c post,
      method r = PUT -> path r = api_clubs_id id ->
      parses (payload r) = true -> authenticated env r = true ->
      clubs st = (pre ++ c :: post)%list ->
      Club._id c = id -> ~ In id (map Club._id pre) ->
      exists t c',
        app env st r
        = (mkState (pre ++ c' :: post) (players st) (standings st)
                   (users st) (next_oid st),
           (read_events (payload r) ++ [VerifyToken t; Db Update])%list,
           Sent (mkResponse 200 (JsonClub (Some c'))))
        /\ Club._id c' = id
        /\ let b := parsed_body (payload r) in
           updates_path (Body.name b) (Club.name c) (Club.name c')
           /\ updates_path (Body.logo b) (Club.logo c) (Club.logo c')
           /\ updates_path (Body.description b) (Club.description c)
                           (Club.description c')
           /\ updates_path (Body.stats b) (Club.stats c) (Club.stats c'))
  /\ (forall env st r id pre c post,
      method r = PUT -> path r = api_players_id id ->
      parses (payload r) = true -> authenticated env r = true ->
      players st = (pre ++ c :: post)%list ->
      Player._id c = id -> ~ In id (map Player._id pre) ->
      exists t c',
        app env st r
        = (mkState (clubs st) (pre ++ c' :: post) (standings st)
                   (users st) (next_oid st),
           (read_events (payload r) ++ [VerifyToken t; Db Update])%list,
           Sent (mkResponse 200 (JsonPlayer (Some c'))))
        /\ Player._id c' = id
        /\ let b := parsed_body (payload r) in
           updates_path (Body.name b) (Player.name c) (Player.name c')
           /\ updates_path (Body.club b) (Player.club c) (Player.club c')
           /\ updates_path (Body.stats b) (Player.stats c) (Player.stats c'))
  /\ (forall env st r id pre c post,
      method r = PUT -> path r = api_standings_id id ->
      parses (payload r) = true -> authenticated env r = true ->
      standings st = (pre ++ c :: post)%list ->
      Standing._id c = id -> ~ In id (map Standing._id pre) ->
      exists t c',
        app env st r
        = (mkState (clubs st) (players st) (pre ++ c' :: post)
                   (users st) (next_oid st),
           (read_events (payload r) ++ [VerifyToken t; Db Update])%list,
           Sent (mkResponse 200 (JsonStanding (Some c'))))
        /\ Standing._id c' = id
        /\ let b := parsed_body (payload r) in
           updates_path (Body.club b) (Standing.club c) (Standing.club c')
           /\ updates_path (Body.points b) (Standing.points c) (Standing.points c')
           /\ updates_path (Body.played b) (Standing.played c) (Standing.played c')
           /\ updates_path (Body.won b) (Standing.won c) (Standing.won c')
           /\ updates_path (Body.drawn b) (Standing.drawn c) (Standing.drawn c')
           /\ updates_path (Body.lost b) (Standing.lost c) (Standing.lost c')
           /\ updates_path (Body.gf b) (Standing.gf c) (Standing.gf c')
           /\ updates_path (Body.ga b) (Standing.ga c) (Standing.ga c')
           /\ updates_path (Body.gd b) (Standing.gd c) (Standing.gd c')).
Proof.
  split; [|split]; intros env st r id pre c post Hm Hpath Hp Ha Hc Hid Hpre.
  - destruct (put_club_present env st r id pre c post Hm Hpath Hp Ha Hc Hid Hpre)
      as [t E].
    exists t, (Club.set (parsed_body (payload r)) c).
    split; [exact E|]. split; [exact Hid|].
    repeat split; apply updates_path_set_path.
  - destruct (put_player_present env st r id pre c post Hm Hpath Hp Ha Hc Hid Hpre)
      as [t E].
    exists t, (Player.set (parsed_body (payload r)) c).
    split; [exact E|]. split; [exact Hid|].
    repeat split; apply updates_path_set_path.
  - destruct (put_standing_present env st r id pre c post Hm Hpath Hp Ha Hc Hid Hpre)
      as [t E].
    exists t, (Standing.set (parsed_body (payload r)) c).
    split; [exact E|]. split; [exact Hid|].
    repeat split; apply updates_path_set_path.
Qed.

(** An authenticated PUT or DELETE whose path parameter is no ObjectId:
    the token is verified, the cast throws, nothing is sent and the store
    is as it was. *)
Lemma app_cast_error env st r :
  method r = PUT \/ method r = DELETE ->
  castable (path r) = false ->
  parses (payload r) = true -> authenticated env r = true ->
  exists t,
    app env st r
    = (st, (read_events (payload r) ++ [VerifyToken t])%list,
       Unhandled "CastError").
Proof.
  intros Hm Hc Hp Ha.
  destruct (authenticated_inv env r Ha) as [t [u [Ht [Hne Hv]]]].
  exists t. apply (app_mutating_cast_error env st r t u); trivial.
  unfold mutating. destruct (path r); try discriminate;
    destruct Hm as [-> | ->]; reflexivity.
Qed.

(** C7, as the code has it.  For every id that is the text of an ObjectId
    and matches no stored record, an authenticated PUT (clubs, players and
    standings alike) answers status 200 with a JSON null body, not 404,
    and leaves the store unchanged.  For an id that is no ObjectId, which
    matches no stored record either, [findByIdAndUpdate] throws: no
    response is sent, and the store is unchanged. *)
Theorem update_of_missing_id_answers_null :
  (forall env st r id,
      method r = PUT -> id_of_path (path r) = Some id ->
      parses (payload r) = true -> authenticated env r = true ->
      ~ In id (ids_at (path r) st) ->
      exists t c,
        app env st r
        = (st, (read_events (payload r) ++ [VerifyToken t; Db Update])%list,
           Sent (mkResponse 200 c))
        /\ is_null c = true)
  /\ (forall env st r,
      method r = PUT -> castable (path r) = false ->
      parses (payload r) = true -> authenticated env r = true ->
      exists t,
        app env st r
        = (st, (read_events (payload r) ++ [VerifyToken t])%list,
           Unhandled "CastError")).
Proof.
  split.
  2:{ intros env st r Hm. apply app_cast_error. now left. }
  intros env st r id Hm Hpath Hp Ha Hid.
  destruct (path r) eqn:Epath; try discriminate;
    injection Hpath as ->; simpl in Hid.
  - destruct (app_authenticated env st r (put_api_clubs_id id) Hp Ha)
      as [t [u [_ [_ E]]]]; [now rewrite Hm, Epath|].
    exists t, (JsonClub None). split; [|reflexivity].
    rewrite E. unfold put_api_clubs_id. simpl.
    rewrite (findByIdAndUpdate_absent Club._id id _ _ Hid).
    destruct st; reflexivity.
  - destruct (app_authenticated env st r (put_api_players_id id) Hp Ha)
      as [t [u [_ [_ E]]]]; [now rewrite Hm, Epath|].
    exists t, (JsonPlayer None). split; [|reflexivity].
    rewrite E. unfold put_api_players_id. simpl.
    rewrite (findByIdAndUpdate_absent Player._id id _ _ Hid).
    destruct st; reflexivity.
  - destruct (app_authenticated env st r (put_api_standings_id id) Hp Ha)
      as [t [u [_ [_ E]]]]; [now rewrite Hm, Epath|].
    exists t, (JsonStanding None). split; [|reflexivity].
    rewrite E. unfold put_api_standings_id. simpl.
    rewrite (findByIdAndUpdate_absent Standing._id id _ _ Hid).
    destruct st; reflexivity.
Qed.

(** An authenticated DELETE answers 204 and removes the first record of
    the addressed collection that has the id. *)
Lemma app_delete env st r id :
  method r = DELETE -> id_of_path (path r) = Some id ->
  parses (payload r) = true -> authenticated env r = true ->
  exists t st',
    app env st r
    = (st', (read_events (payload r) ++ [VerifyToken t; Db Remove])%list,
       Sent (mkResponse 204 Empty))
    /\ (~ In id (ids_at (path r) st) -> st' = st)
    /\ (NoDup (ids_at (path r) st) -> ~ In id (ids_at (path r) st')).
Proof.
  intros Hm Hpath Hp Ha.
  destruct (path r) eqn:Epath; try discriminate;
    injection Hpath as ->; simpl.
  - destruct (app_authenticated env st r (delete_api_clubs_id id) Hp Ha)
      as [t [u [_ [_ E]]]]; [now rewrite Hm, Epath|].
    exists t. eexists. split; [rewrite E; reflexivity|]. simpl. split.
    + intros Hid. rewrite (findByIdAndDelete_absent Club._id id _ Hid).
      destruct st; reflexivity.
    + apply findByIdAndDelete_gone.
  - destruct (app_authenticated env st r (delete_api_players_id id) Hp Ha)
      as [t [u [_ [_ E]]]]; [now rewrite Hm, Epath|].
    exists t. eexists. split; [rewrite E; reflexivity|]. simpl. split.
    + intros Hid. rewrite (findByIdAndDelete_absent Player._id id _ Hid).
      destruct st; reflexivity.
    + apply findByIdAndDelete_gone.
  - destruct (app_authenticated env st r (delete_api_standings_id id) Hp Ha)
      as [t [u [_ [_ E]]]]; [now rewrite Hm, Epath|].
    exists t. eexists. split; [rewrite E; reflexivity|]. simpl. split.
    + intros Hid. rewrite (findByIdAndDelete_absent Standing._id id _ Hid).
      destruct st; reflexivity.
    + apply findByIdAndDelete_gone.
Qed.

(** C6, as the code has it.  Delete is idempotent on ids that are the
    text of an ObjectId: for every such id that matches no record of the
    addressed collection, an authenticated DELETE answers 204, raises no
    error and leaves the store unchanged; and of two authenticated DELETEs
    of one such id in a row, on a collection that stores each identifier
    once (as every reachable state does), both answer 204 and the second
    leaves the store as the first left it.  For an id that is no ObjectId,
    which matches no record either, [findByIdAndDelete] throws: no
    response is sent, and the store is unchanged. *)
Theorem delete_is_idempotent :
  (forall env st r id,
      method r = DELETE -> id_of_path (path r) = Some id ->
      parses (payload r) = true -> authenticated env r = true ->
      ~ In id (ids_at (path r) st) ->
      exists t,
        app env st r
        = (st, (read_events (payload r) ++ [VerifyToken t; Db Remove])%list,
           Sent (mkResponse 204 Empty)))
  /\ (forall env1 env2 st r1 r2 id,
      method r1 = DELETE -> id_of_path (path r1) = Some id ->
      method r2 = DELETE -> path r2 = path r1 ->
      parses (payload r1) = true -> authenticated env1 r1 = true ->
      parses (payload r2) = true -> authenticated env2 r2 = true ->
      NoDup (ids_at (path r1) st) ->
      exists st1 ev1 ev2,
        app env1 st r1 = (st1, ev1, Sent (mkResponse 204 Empty))
        /\ app env2 st1 r2 = (st1, ev2, Sent (mkResponse 204 Empty)))
  /\ (forall env st r,
      method r = DELETE -> castable (path r) = false ->
      parses (payload r) = true -> authenticated env r = true ->
      exists t,
        app env st r
        = (st, (read_events (payload r) ++ [VerifyToken t])%list,
           Unhandled "CastError")).
Proof.
  split; [|split].
  - intros env st r id Hm Hpath Hp Ha Hid.
    destruct (app_delete env st r id Hm Hpath Hp Ha) as [t [st' [E [Hsame _]]]].
    exists t. now rewrite E, (Hsame Hid).
  - intros env1 env2 st r1 r2 id Hm1 Hpath1 Hm2 Hpath2 Hp1 Ha1 Hp2 Ha2 Hnd.
    destruct (app_delete env1 st r1 id Hm1 Hpath1 Hp1 Ha1)
      as [t1 [st1 [E1 [_ Hgone]]]].
    rewrite <- Hpath2 in Hpath1.
    destruct (app_delete env2 st1 r2 id Hm2 Hpath1 Hp2 Ha2)
      as [t2 [st2 [E2 [Hsame _]]]].
    rewrite Hpath2 in Hsame. rewrite (Hsame (Hgone Hnd)) in E2.
    eauto.
  - intros env st r Hm. apply app_cast_error. now right.
Qed.
End Resources.

(** ** Accounts *)

Lemma findOne_email_app_found email c extra u :
  findOne_email email c = Some u -> findOne_email email (c ++ extra) = Some u.
Proof.
  unfold findOne_email. induction c as [|d r IH]; simpl; [discriminate|].
  destruct (opt_eqb String.eqb (User.email d) email); auto.
Qed.

Lemma findOne_email_app_new email c u :
  findOne_email email c = None -> User.email u = email ->
  findOne_email email (c ++ [u]) = Some u.
Proof.
  unfold findOne_email. intros Hc Hu. induction c as [|d r IH]; simpl in *.
  - rewrite Hu. destruct email as [e|]; simpl; [now rewrite String.eqb_refl|reflexivity].
  - destruct (opt_eqb String.eqb (User.email d) email); [discriminate|auto].
Qed.

Section Accounts.
Context {jwt : Jwt} {bcrypt : Bcrypt} {process : ProcessEnv}.

Lemma app_register env st r b password :
  method r = POST -> path r = api_register ->
  payload r = Json b -> Body.password b = Some password ->
  app env st r
  = (mkState (clubs st) (players st) (standings st)
             (users st
              ++ [User.mk (next_oid st) (Body.email b)
                          (Some (bcrypt_hash password 10 (salt env)))])
             (N.succ (next_oid st)),
     [ReadBody; Db Save],
     Sent (mkResponse 201 (JsonMessage "User registered"))).
Proof.
  intros Hm Hpath Hpl Hpw. unfold app. rewrite Hm, Hpath. simpl.
  unfold express_json. simpl. rewrite Hpl. simpl.
  unfold post_api_register. simpl. rewrite Hpw. reflexivity.
Qed.

(** The users collection only ever grows at its end. *)
Lemma app_users_grow env st r :
  exists extra, users (fst (fst (app env st r))) = (users st ++ extra)%list.
Proof.
  destruct (parses (payload r)) eqn:Hp.
  2:{ destruct (payload r) eqn:E; try discriminate.
      rewrite (app_bad_json env st r E). exists []. now rewrite app_nil_r. }
  destruct (mutating r) eqn:Hm.
  - destruct (truthy_string (token_of (authorization r))) eqn:Et.
    + destruct (token_of (authorization r)) as [t|] eqn:Ht; [|discriminate].
      simpl in Et. apply negb_true_iff in Et.
      assert (Hne : t <> "") by now apply String.eqb_neq.
      destruct (jwt_verify t JWT_SECRET (now env)) as [u|] eqn:Hv.
      * exists []. rewrite app_nil_r.
        destruct r as [m p a pl]. unfold mutating in Hm. simpl in *.
        destruct m, p; try discriminate;
          (erewrite app_mutating_accepted; [|eassumption|eassumption|eassumption|eassumption|reflexivity]);
          simpl; try reflexivity.
        all: unfold put_api_clubs_id, put_api_players_id, put_api_standings_id;
          simpl; destruct (findByIdAndUpdate _ _ _ _); reflexivity.
      * rewrite (app_mutating_rejected env st r t Hm Hp Ht Hne Hv).
        exists []. now rewrite app_nil_r.
    + rewrite (app_mutating_no_token env st r Hm Hp Et).
      exists []. now rewrite app_nil_r.
  - rewrite (app_parsed env st r Hp).
    destruct r as [m p a pl]. unfold mutating in Hm. simpl in *.
    destruct m, p; try discriminate; simpl;
      try (exists []; now rewrite app_nil_r).
    + unfold post_api_register. cbn [body req].
      destruct (Body.password (parsed_body pl)); simpl.
      * eexists. reflexivity.
      * exists []. now rewrite app_nil_r.
    + unfold post_api_login. cbn [body req].
      destruct (findOne_email _ _) as [u|]; simpl;
        [|exists []; now rewrite app_nil_r].
      destruct (Body.password _), (User.password u); simpl;
        try (exists []; now rewrite app_nil_r).
      destruct (bcrypt_compare _ _); simpl; exists []; now rewrite app_nil_r.
Qed.

Lemma serve_users_grow rs : forall st,
  exists extra, users (fst (serve st rs)) = (users st ++ extra)%list.
Proof.
  induction rs as [|[env r] rest IH]; intros st; simpl.
  - exists []. now rewrite app_nil_r.
  - destruct (app_users_grow env st r) as [x Hx].
    destruct (app env st r) as [[st1 ev] out]. simpl in Hx.
    destruct out as [res|e]; [|exists x; exact Hx].
    destruct (IH st1) as [y Hy].
    destruct (serve st1 rest) as [st2 outs]. simpl in *.
    exists (x ++ y)%list. now rewrite Hy, Hx, app_assoc.
Qed.

(** C8.  A registration with an email and a password, whatever the
    store holds, appends a user made of the email and of
    [bcrypt.hash(password, 10)] (the salted hash, computed with a fresh
    salt and cost 10; the password itself is passed to nothing else) and
    answers 201.  No lookup precedes the insert: two registrations with
    one email both answer 201 and leave two accounts with that email and
    different identifiers. *)
Theorem register_stores_hash_and_accepts_duplicates :
  (forall env st r b password,
      method r = POST -> path r = api_register ->
      payload r = Json b -> Body.password b = Some password ->
      app env st r
      = (mkState (clubs st) (players st) (standings st)
                 (users st
                  ++ [User.mk (next_oid st) (Body.email b)
                              (Some (bcrypt_hash password 10 (salt env)))])
                 (N.succ (next_oid st)),
         [ReadBody; Db Save],
         Sent (mkResponse 201 (JsonMessage "User registered"))))
  /\ (forall env1 env2 st r1 r2 b1 b2 email p1 p2,
      method r1 = POST -> path r1 = api_register -> payload r1 = Json b1 ->
      method r2 = POST -> path r2 = api_register -> payload r2 = Json b2 ->
      Body.email b1 = Some email -> Body.password b1 = Some p1 ->
      Body.email b2 = Some email -> Body.password b2 = Some p2 ->
      exists st2 u1 u2,
        serve st [(env1, r1); (env2, r2)]
        = (st2, [Sent (mkResponse 201 (JsonMessage "User registered"));
                 Sent (mkResponse 201 (JsonMessage "User registered"))])
        /\ users st2 = (users st ++ [u1; u2])%list
        /\ User.email u1 = Some email /\ User.email u2 = Some email
        /\ User._id u1 <> User._id u2
        /\ User.password u1 = Some (bcrypt_hash p1 10 (salt env1))
        /\ User.password u2 = Some (bcrypt_hash p2 10 (salt env2))).
Proof.
  split; [exact app_register|].
  intros env1 env2 st r1 r2 b1 b2 email p1 p2
         Hm1 Hpath1 Hpl1 Hm2 Hpath2 Hpl2 He1 Hp1 He2 Hp2.
  simpl.
  rewrite (app_register env1 st r1 b1 p1 Hm1 Hpath1 Hpl1 Hp1).
  rewrite (app_register env2 _ r2 b2 p2 Hm2 Hpath2 Hpl2 Hp2). simpl.
  do 3 eexists. split; [reflexivity|]. simpl.
  split; [now rewrite <- app_assoc|].
  simpl. repeat split; trivial.
  apply N.neq_succ_diag_r.
Qed.
End Accounts.

(** ** Register, login, verify *)

Section Login.
Context {jwt : Jwt} {bcrypt : Bcrypt} {process : ProcessEnv}.

(** bcryptjs: a password matches the hash made of it. *)
Hypothesis bcrypt_compare_hash : forall s rounds salt,
  bcrypt_compare s (bcrypt_hash s rounds salt) = true.

(** jsonwebtoken: a token signed at [issued] with [expiresIn] carries
    [exp = issued + expiresIn]; under the signing secret it verifies to
    its payload while the clock is below [exp], and fails from [exp] on. *)
Hypothesis jwt_verify_sign : forall payload secret expiresIn issued t,
  jwt_verify (jwt_sign payload secret expiresIn issued) secret t
  = if (t <? issued + expiresIn)%N then Some payload else None.

(** jsonwebtoken: a token is a non-empty string without spaces. *)
Hypothesis jwt_sign_compact : forall payload secret expiresIn issued,
  no_char " " (jwt_sign payload secret expiresIn issued) = true
  /\ jwt_sign payload secret expiresIn issued <> "".

Lemma app_login_found env st r b u password hash :
  method r = POST -> path r = api_login -> payload r = Json b ->
  findOne_email (Body.email b) (users st) = Some u ->
  Body.password b = Some password -> User.password u = Some hash ->
  bcrypt_compare password hash = true ->
  app env st r
  = (st, [ReadBody; Db FindOne],
     Sent (mkResponse 200
             (JsonToken (jwt_sign (mkClaims (User.email u) (User._id u))
                                  JWT_SECRET one_day (now env))))).
Proof.
  intros Hm Hpath Hpl Hu Hpw Hh Hc. unfold app. rewrite Hm, Hpath. simpl.
  unfold express_json. simpl. rewrite Hpl. simpl.
  unfold post_api_login. cbn [body req]. rewrite Hu, Hpw, Hh, Hc. reflexivity.
Qed.

(** C3, as the code has it.  For every user created by
    register(email, password) while no stored user has that email, a
    later login with the same email and password, after any requests in
    between that were all answered (none made a handler throw), answers
    200 with a token signed for that user with expiry 24 hours (86400
    seconds) after issuance; sent as [Bearer <token>], the token passes
    [authenticateToken] at every time strictly before issuance plus 24
    hours and is answered 403 at every time from then on. *)
Theorem register_login_verify
    env_r env_l st r_reg r_log b_reg b_log email password rs :
  method r_reg = POST -> path r_reg = api_register ->
  payload r_reg = Json b_reg ->
  Body.email b_reg = Some email -> Body.password b_reg = Some password ->
  method r_log = POST -> path r_log = api_login ->
  payload r_log = Json b_log ->
  Body.email b_log = Some email -> Body.password b_log = Some password ->
  findOne_email (Some email) (users st) = None ->
  let st1 := fst (fst (app env_r st r_reg)) in
  (forall e, ~ In (Unhandled e) (snd (serve st1 rs))) ->
  let st2 := fst (serve st1 rs) in
  let identity := mkClaims (Some email) (next_oid st) in
  let token := jwt_sign identity JWT_SECRET one_day (now env_l) in
  app env_l st2 r_log
  = (st2, [ReadBody; Db FindOne], Sent (mkResponse 200 (JsonToken token)))
  /\ forall env st' ctx,
      authorization (req ctx) = Some ("Bearer " ++ token) ->
      ((now env < now env_l + 86400)%N ->
       authenticateToken env st' ctx
       = (st', [VerifyToken token],
          Next (mkCtx (req ctx) (body ctx) (Some identity))))
      /\ ((now env_l + 86400 <= now env)%N ->
          authenticateToken env st' ctx
          = (st', [VerifyToken token],
             Respond (mkResponse 403 (Text "Forbidden")))).
Proof.
  intros Hm1 Hpath1 Hpl1 He1 Hp1 Hm2 Hpath2 Hpl2 He2 Hp2 Hnew st1 Hserved
         st2 identity token.
  set (u := User.mk (next_oid st) (Some email)
                    (Some (bcrypt_hash password 10 (salt env_r)))).
  assert (Hst1 : users st1 = (users st ++ [u])%list).
  { unfold st1. rewrite (app_register env_r st r_reg b_reg password Hm1 Hpath1 Hpl1 Hp1).
    simpl. now rewrite He1. }
  assert (Hfound : findOne_email (Some email) (users st2) = Some u).
  { unfold st2. destruct (serve_users_grow rs st1) as [extra ->].
    apply findOne_email_app_found. rewrite Hst1.
    now apply findOne_email_app_new. }
  split.
  - rewrite <- He2 in Hfound.
    apply (app_login_found env_l st2 r_log b_log u password
             (bcrypt_hash password 10 (salt env_r))); trivial.
  - intros env st' ctx Hauth.
    destruct (jwt_sign_compact identity JWT_SECRET one_day (now env_l))
      as [Hns Hne].
    assert (Htok : token_of (authorization (req ctx)) = Some token).
    { rewrite Hauth. now apply (token_of_scheme "Bearer" token). }
    pose proof (jwt_verify_sign identity JWT_SECRET one_day (now env_l) (now env))
      as Hv.
    fold token in Hv. unfold one_day in Hv. split; intros Ht.
    + apply N.ltb_lt in Ht. rewrite Ht in Hv.
      now apply authenticateToken_accepted.
    + apply N.ltb_ge in Ht. rewrite Ht in Hv.
      now apply authenticateToken_rejected.
Qed.
End Login.

(** ** The transparent instance satisfies the laws *)

Lemma no_char_append (c : ascii) (a b : string) :
  no_char c (a ++ b) = no_char c a && no_char c b.
Proof.
  induction a as [|x a IH]; simpl; [reflexivity|].
  now rewrite IH, andb_assoc.
Qed.

Lemma append_assoc (a b c : string) : (a ++ b) ++ c = a ++ b ++ c.
Proof. induction a as [|x a IH]; simpl; [reflexivity|now rewrite IH]. Qed.

Lemma prefix_append (a b : string) : String.prefix a (a ++ b) = true.
Proof.
  induction a as [|x a IH]; simpl; [now destruct b|].
  destruct (ascii_dec x x); [exact IH|congruence].
Qed.

Lemma plain_dec_enc_string (s : string) :
  Plain.dec_string (Plain.enc_string s) = Some s.
Proof.
  induction s as [|a r IH]; [reflexivity|].
  destruct a as [b0 b1 b2 b3 b4 b5 b6 b7].
  cbn [Plain.enc_string Plain.byte_digits Plain.dec_string].
  rewrite IH.
  destruct b0, b1, b2, b3, b4, b5, b6, b7; reflexivity.
Qed.

Lemma plain_enc_string_digits (c : ascii) (s : string) :
  Ascii.eqb "0" c = false -> Ascii.eqb "1" c = false ->
  no_char c (Plain.enc_string s) = true.
Proof.
  intros H0 H1.
  assert (Hd : forall b, negb (Ascii.eqb (Plain.digit b) c) = true)
    by (intros []; unfold Plain.digit; [now rewrite H1|now rewrite H0]).
  induction s as [|a r IH]; [reflexivity|].
  destruct a as [b0 b1 b2 b3 b4 b5 b6 b7].
  cbn [Plain.enc_string Plain.byte_digits no_char].
  now rewrite !Hd, IH.
Qed.

Lemma plain_dec_enc_positive (p : positive) :
  Plain.dec_positive (Plain.enc_positive p) = Some p.
Proof. induction p as [q IH|q IH|]; simpl; [now rewrite IH..|reflexivity]. Qed.

Lemma plain_enc_positive_digits (c : ascii) (p : positive) :
  Ascii.eqb "0" c = false -> Ascii.eqb "1" c = false ->
  no_char c (Plain.enc_positive p) = true.
Proof.
  intros H0 H1.
  induction p as [q IH|q IH|]; cbn [Plain.enc_positive no_char]; [..|reflexivity].
  - now rewrite H1, IH.
  - now rewrite H0, IH.
Qed.

Lemma plain_dec_enc_N (n : N) : Plain.dec_N (Plain.enc_N n) = Some n.
Proof.
  unfold Plain.dec_N, Plain.enc_N. rewrite plain_dec_enc_positive. simpl.
  now rewrite N.pos_pred_succ.
Qed.

Lemma plain_dec_enc_email (e : option string) :
  Plain.dec_email (Plain.enc_email e) = Some e.
Proof.
  destruct e as [s|]; [|reflexivity]. simpl.
  now rewrite plain_dec_enc_string.
Qed.

Lemma plain_enc_email_digits (c : ascii) (e : option string) :
  Ascii.eqb "0" c = false -> Ascii.eqb "1" c = false ->
  Ascii.eqb "n" c = false -> Ascii.eqb "s" c = false ->
  no_char c (Plain.enc_email e) = true.
Proof.
  intros H0 H1 Hn Hs. destruct e as [s|]; cbn [Plain.enc_email no_char].
  - now rewrite Hs, plain_enc_string_digits.
  - now rewrite Hn.
Qed.

Lemma plain_compare_hash (s : string) (rounds : N) (salt : string) :
  Plain.compare s (Plain.hash s rounds salt) = true.
Proof.
  unfold Plain.compare, Plain.hash.
  replace ("$plain$" ++ s ++ "$" ++ salt) with (("$plain$" ++ s ++ "$") ++ salt).
  - apply prefix_append.
  - now rewrite !append_assoc.
Qed.

Lemma plain_sign_parts payload secret expiresIn issued :
  Plain.sign payload secret expiresIn issued
  = Plain.enc_string secret
    ++ String "." (Plain.enc_email (claim_email payload)
    ++ String "." (Plain.enc_N (claim_id payload)
    ++ String "." (Plain.enc_N (issued + expiresIn)))).
Proof. reflexivity. Qed.

Lemma plain_verify_sign payload secret expiresIn issued t :
  Plain.verify (Plain.sign payload secret expiresIn issued) secret t
  = if (t <? issued + expiresIn)%N then Some payload else None.
Proof.
  unfold Plain.verify. rewrite plain_sign_parts.
  rewrite (split_app_sep "." (Plain.enc_string secret))
    by now apply plain_enc_string_digits.
  rewrite (split_app_sep "." (Plain.enc_email (claim_email payload)))
    by now apply plain_enc_email_digits.
  rewrite (split_app_sep "." (Plain.enc_N (claim_id payload)))
    by now apply plain_enc_positive_digits.
  rewrite (split_no_sep "." (Plain.enc_N (issued + expiresIn)))
    by now apply plain_enc_positive_digits.
  rewrite plain_dec_enc_string, plain_dec_enc_email, !plain_dec_enc_N.
  rewrite String.eqb_refl. simpl. now destruct payload.
Qed.

Lemma plain_sign_compact payload secret expiresIn issued :
  no_char " " (Plain.sign payload secret expiresIn issued) = true
  /\ Plain.sign payload secret expiresIn issued <> "".
Proof.
  rewrite plain_sign_parts. split.
  - rewrite no_char_append. cbn [no_char].
    rewrite no_char_append. cbn [no_char].
    rewrite no_char_append. cbn [no_char].
    rewrite plain_enc_string_digits, plain_enc_email_digits by reflexivity.
    unfold Plain.enc_N. now rewrite !plain_enc_positive_digits.
  - apply String.eqb_neq, append_sep_nonempty.
Qed.

(** ** Identifiers stay unique

    The hypothesis of unique identifiers, under which a second delete finds
    nothing, holds in every state the application reaches from an empty
    store. *)

Lemma fresh_ids_succ next ids :
  fresh_ids next ids -> fresh_ids (N.succ next) ids.
Proof.
  intros [Hn Hb]. split; [exact Hn|].
  intros id Hin. apply Hb in Hin. lia.
Qed.

Lemma fresh_ids_snoc next ids :
  fresh_ids next ids -> fresh_ids (N.succ next) (ids ++ [next]).
Proof.
  intros [Hn Hb]. split.
  - apply NoDup_app; [exact Hn|repeat constructor; intros []|].
    intros id Hin [<-|[]]. apply Hb in Hin. lia.
  - intros id Hin. apply in_app_iff in Hin as [Hin|[<-|[]]]; [|lia].
    apply Hb in Hin. lia.
Qed.

Lemma fresh_ids_delete {D} (id_of : D -> oid) next id c :
  fresh_ids next (map id_of c) ->
  fresh_ids next (map id_of (findByIdAndDelete id_of id c)).
Proof.
  intros [Hn Hb]. split; [now apply findByIdAndDelete_NoDup|].
  intros x Hin. apply Hb. now apply findByIdAndDelete_incl in Hin.
Qed.

Lemma fresh_ids_update {D} (id_of : D -> oid) next id update c :
  (forall d, id_of (update d) = id_of d) ->
  fresh_ids next (map id_of c) ->
  fresh_ids next (map id_of (fst (findByIdAndUpdate id_of id update c))).
Proof. intros Hu H. now rewrite findByIdAndUpdate_ids. Qed.

Section Identifiers.
Context {jwt : Jwt} {bcrypt : Bcrypt} {process : ProcessEnv}.

Lemma app_ids_fresh env st r :
  ids_fresh st -> ids_fresh (fst (fst (app env st r))).
Proof.
  intros Hf.
  destruct (parses (payload r)) eqn:Hp.
  2:{ destruct (payload r) eqn:E; try discriminate.
      now rewrite (app_bad_json env st r E). }
  destruct Hf as [Hc [Hpl [Hs Hu]]].
  destruct (mutating r) eqn:Hm.
  - destruct (truthy_string (token_of (authorization r))) eqn:Et.
    + destruct (token_of (authorization r)) as [t|] eqn:Ht; [|discriminate].
      simpl in Et. apply negb_true_iff in Et.
      assert (Hne : t <> "") by now apply String.eqb_neq.
      destruct (jwt_verify t JWT_SECRET (now env)) as [u|] eqn:Hv.
      * destruct r as [m p a pl]. unfold mutating in Hm. simpl in *.
        destruct m, p; try discriminate;
          (erewrite app_mutating_accepted;
           [|eassumption|eassumption|eassumption|eassumption|reflexivity]).
        all: unfold post_api_clubs, post_api_players, post_api_standings,
               put_api_clubs_id, put_api_players_id, put_api_standings_id,
               delete_api_clubs_id, delete_api_players_id,
               delete_api_standings_id, save;
             cbn [body req].
        all: try match goal with
                 | |- context [findByIdAndUpdate ?f ?i ?g ?c] =>
                     pose proof (fresh_ids_update f (next_oid st) i g c) as Hup;
                     destruct (findByIdAndUpdate f i g c) as [c' o]
                 end.
        all: unfold ids_fresh; cbn [fst snd clubs players standings users next_oid];
             rewrite ?map_app; cbn [map Club.create Player.create Standing.create
                                    Club._id Player._id Standing._id].
        all: split; [|split; [|split]];
             try (apply fresh_ids_snoc; assumption);
             try (apply fresh_ids_succ; assumption);
             try (apply fresh_ids_delete; assumption);
             try (apply Hup; [intros []; reflexivity|assumption]);
             try (apply Hc); try (apply Hpl); try (apply Hs); try (apply Hu).
      * rewrite (app_mutating_rejected env st r t Hm Hp Ht Hne Hv).
        (split; [|split; [|split]]; assumption).
    + rewrite (app_mutating_no_token env st r Hm Hp Et).
      (split; [|split; [|split]]; assumption).
  - rewrite (app_parsed env st r Hp).
    destruct r as [m p a pl]. unfold mutating in Hm. simpl in *.
    destruct m, p; try discriminate; simpl;
      try ((split; [|split; [|split]]; assumption)).
    + unfold post_api_register. cbn [body req].
      destruct (Body.password (parsed_body pl)); simpl;
        [|(split; [|split; [|split]]; assumption)].
      unfold ids_fresh, save. simpl. rewrite map_app. simpl.
      split; [|split; [|split]];
        try (apply fresh_ids_snoc; assumption);
        try (apply fresh_ids_succ; assumption);
        try (apply Hc); try (apply Hpl); try (apply Hs); try (apply Hu).
    + unfold post_api_login. cbn [body req].
      destruct (findOne_email _ _) as [u|]; simpl;
        [|(split; [|split; [|split]]; assumption)].
      destruct (Body.password _), (User.password u); simpl;
        try ((split; [|split; [|split]]; assumption)).
      destruct (bcrypt_compare _ _); simpl; (split; [|split; [|split]]; assumption).
Qed.

Lemma serve_ids_fresh rs : forall st,
  ids_fresh st -> ids_fresh (fst (serve st rs)).
Proof.
  induction rs as [|[env r] rest IH]; intros st Hf; simpl; [exact Hf|].
  pose proof (app_ids_fresh env st r Hf) as H1.
  destruct (app env st r) as [[st1 ev] out]. simpl in H1.
  destruct out as [res|e]; [|exact H1].
  pose proof (IH st1 H1) as H2.
  destruct (serve st1 rest) as [st2 outs]. exact H2.
Qed.

Lemma empty_ids_fresh : ids_fresh (mkState [] [] [] [] 0%N).
Proof. repeat split; simpl; try constructor; intros id []. Qed.
End Identifiers.

(** ** Concrete runs *)

Section Runs.
Import Plain.
#[local] Open Scope N_scope.



(** C2 fails as stated: POST /api/clubs with a JSON body and no token is
    answered 401 after express.json() has read and parsed the body. *)
Lemma rejected_request_body_already_read :
  mutating post_club_no_token = true
  /\ app clock empty_db post_club_no_token
     = (empty_db, [ReadBody], unauthorized)
  /\ status_of unauthorized = Some 401
  /\ In ReadBody (snd (fst (app clock empty_db post_club_no_token))).
Proof.
  split; [reflexivity|]. split; [reflexivity|]. split; [reflexivity|].
  vm_compute. now left.
Qed.

Lemma rejected_request_body_read_but_unused_witness :
  mutating post_club_no_token = true
  /\ app clock empty_db post_club_no_token = (empty_db, [ReadBody], unauthorized)
  /\ (status_of unauthorized = Some 401 \/ status_of unauthorized = Some 403)
  /\ (forall op, ~ In (Db op) [ReadBody])
  /\ (In ReadBody [ReadBody] <-> payload post_club_no_token <> NoJson).
Proof.
  split; [reflexivity|]. split; [reflexivity|]. split; [left; reflexivity|].
  destruct (rejected_request_body_read_but_unused
              clock empty_db post_club_no_token empty_db [ReadBody] unauthorized
              eq_refl eq_refl (or_introl eq_refl))
    as [_ [Hdb [Hread _]]].
  split; assumption.
Defined.

(** C3 fails as stated: the user created by the second registration of
    an email cannot log in with its own password; [findOne] returns the
    first account and the password is compared with that account's
    hash. *)
Lemma second_account_cannot_log_in :
  snd (serve empty_db [(clock, register_first); (clock, register_second);
                       (later, login_second)])
  = [registered; registered;
     Sent (mkResponse 400 (JsonError "Invalid credentials"))].
Proof. vm_compute. reflexivity. Qed.

Lemma register_login_verify_witness :
  findOne_email (Some "a@club.example") (users empty_db) = None
  /\ (forall e,
        ~ In (Unhandled e)
             (snd (serve (fst (fst (app clock empty_db register_first)))
                         [(clock, post_club_no_token)])))
  /\ let st2 := fst (serve (fst (fst (app clock empty_db register_first)))
                           [(clock, post_club_no_token)]) in
     let identity := mkClaims (Some "a@club.example") 0 in
     let token := jwt_sign identity JWT_SECRET one_day 2000 in
     app later st2 login_first
     = (st2, [ReadBody; Db FindOne], Sent (mkResponse 200 (JsonToken token)))
     /\ authenticateToken (mkEnv 88399 "") empty_db
          (initial (mkRequest DELETE (api_clubs_id 0)
                              (Some ("Bearer " ++ token)) NoJson))
        = (empty_db, [VerifyToken token],
           Next (mkCtx (mkRequest DELETE (api_clubs_id 0)
                                  (Some ("Bearer " ++ token)) NoJson)
                       Body.empty (Some identity)))
     /\ authenticateToken (mkEnv 88400 "") empty_db
          (initial (mkRequest DELETE (api_clubs_id 0)
                              (Some ("Bearer " ++ token)) NoJson))
        = (empty_db, [VerifyToken token],
           Respond (mkResponse 403 (Text "Forbidden"))).
Proof.
  assert (Hserved : forall e,
             ~ In (Unhandled e)
                  (snd (serve (fst (fst (app clock empty_db register_first)))
                              [(clock, post_club_no_token)])))
    by (intros e [H|[]]; discriminate).
  split; [reflexivity|]. split; [exact Hserved|]. intros st2 identity token.
  destruct (@register_login_verify Plain.jwt Plain.bcrypt Plain.process
              plain_compare_hash plain_verify_sign plain_sign_compact
              clock later empty_db register_first login_first
              (credentials "a@club.example" "first")
              (credentials "a@club.example" "first")
              "a@club.example" "first" [(clock, post_club_no_token)]
              eq_refl eq_refl eq_refl eq_refl eq_refl
              eq_refl eq_refl eq_refl eq_refl eq_refl eq_refl Hserved)
    as [Hlogin Hverify].
  split; [exact Hlogin|].
  split.
  - apply (Hverify (mkEnv 88399 "") empty_db
                   (initial (mkRequest DELETE (api_clubs_id 0)
                                       (Some ("Bearer " ++ token)) NoJson))
                   eq_refl).
    reflexivity.
  - apply (Hverify (mkEnv 88400 "") empty_db
                   (initial (mkRequest DELETE (api_clubs_id 0)
                                       (Some ("Bearer " ++ token)) NoJson))
                   eq_refl).
    vm_compute. discriminate.
Defined.


Lemma standings_logo_always_empty_witness :
  method get_standings = GET
  /\ path get_standings = api_standings
  /\ parses (payload get_standings) = true
  /\ exists rows,
       app later two_rows get_standings
       = (two_rows, [Db Find], Sent (res_json (JsonRows rows)))
       /\ List.length rows = 2%nat
       /\ forall row, In row rows -> Row.logo row = Str "".
Proof.
  split; [reflexivity|]. split; [reflexivity|]. split; [reflexivity|].
  destruct (standings_logo_always_empty later two_rows get_standings
              eq_refl eq_refl) as [Hlogo Hrows].
  destruct (Hrows eq_refl) as [rows [Happ Hlen]].
  exists rows. split; [exact Happ|]. split; [exact Hlen|].
  exact (Hlogo two_rows [Db Find] (res_json (JsonRows rows)) rows Happ eq_refl).
Defined.

Lemma update_changes_only_supplied_fields_witness :
  authenticated clock put_club_logo = true
  /\ exists t c',
       app clock one_club put_club_logo
       = (mkState [c'] [] [] [] 1,
          [ReadBody; VerifyToken t; Db Update],
          Sent (mkResponse 200 (JsonClub (Some c'))))
       /\ Club.name c' = Some "Red FC"
       /\ Club.logo c' = Some "https://club.example/red.png"
       /\ Club.description c' = Some "founded 2020".
Proof.
  assert (Ha : authenticated clock put_club_logo = true)
    by (vm_compute; reflexivity).
  split; [exact Ha|].
  destruct (proj1 (@update_changes_only_supplied_fields
                     Plain.jwt Plain.bcrypt Plain.process)
              clock one_club put_club_logo 0 []
              (Club.mk 0 (Some "Red FC") None (Some "founded 2020") None) []
              eq_refl eq_refl eq_refl Ha eq_refl eq_refl (fun H => H))
    as [t [c' [Happ [_ [Hname [Hlogo [Hdesc _]]]]]]].
  exists t, c'. repeat split; assumption.
Defined.

(** C6 fails as stated: DELETE /api/clubs/abc with a valid token.  [abc]
    matches no record, yet the request is not answered 204: the cast of
    the id throws inside the handler and no response is sent. *)
Lemma delete_of_malformed_id_not_answered :
  authenticated clock delete_club_bad_id = true
  /\ app clock one_club delete_club_bad_id
     = (one_club, [VerifyToken admin_token], Unhandled "CastError")
  /\ status_of (snd (app clock one_club delete_club_bad_id)) <> Some 204.
Proof.
  split; [vm_compute; reflexivity|]. split; [vm_compute; reflexivity|].
  vm_compute. discriminate.
Qed.

Lemma delete_is_idempotent_witness :
  authenticated clock (delete_club 0) = true
  /\ authenticated later (delete_club 0) = true
  /\ NoDup (ids_at (path (delete_club 0)) one_club)
  /\ exists st1 ev1 ev2,
       app clock one_club (delete_club 0)
       = (st1, ev1, Sent (mkResponse 204 Empty))
       /\ app later st1 (delete_club 0)
          = (st1, ev2, Sent (mkResponse 204 Empty)).
Proof.
  assert (Hnd : NoDup (ids_at (path (delete_club 0)) one_club))
    by (repeat constructor; intros []).
  split; [vm_compute; reflexivity|]. split; [vm_compute; reflexivity|].
  split; [exact Hnd|].
  apply (proj1 (proj2 delete_is_idempotent) clock later one_club
               (delete_club 0) (delete_club 0) 0);
    try reflexivity; exact Hnd.
Defined.

(** C7 fails as stated: PUT /api/clubs/abc with a valid token.  [abc]
    matches no record, yet the request is not answered 200 with null: the
    cast of the id throws inside the handler and no response is sent. *)
Lemma update_of_malformed_id_not_answered :
  authenticated clock put_club_bad_id = true
  /\ app clock one_club put_club_bad_id
     = (one_club, [ReadBody; VerifyToken admin_token], Unhandled "CastError")
  /\ status_of (snd (app clock one_club put_club_bad_id)) <> Some 200.
Proof.
  split; [vm_compute; reflexivity|]. split; [vm_compute; reflexivity|].
  vm_compute. discriminate.
Qed.

Lemma update_of_missing_id_answers_null_witness :
  authenticated clock put_club_unknown = true
  /\ ~ In 7 (ids_at (path put_club_unknown) one_club)
  /\ exists t c,
       app clock one_club put_club_unknown
       = (one_club, [ReadBody; VerifyToken t; Db Update],
          Sent (mkResponse 200 c))
       /\ is_null c = true.
Proof.
  assert (Hid : ~ In 7 (ids_at (path put_club_unknown) one_club))
    by (intros [H|[]]; discriminate).
  split; [vm_compute; reflexivity|]. split; [exact Hid|].
  apply (proj1 update_of_missing_id_answers_null
               clock one_club put_club_unknown 7);
    try reflexivity; exact Hid.
Defined.

Lemma register_stores_hash_and_accepts_duplicates_witness :
  exists st2 u1 u2,
    serve empty_db [(clock, register_first); (later, register_second)]
    = (st2, [registered; registered])
    /\ users st2 = [u1; u2]
    /\ User.email u1 = Some "a@club.example"
    /\ User.email u2 = Some "a@club.example"
    /\ User._id u1 <> User._id u2.
Proof.
  destruct (proj2 register_stores_hash_and_accepts_duplicates
              clock later empty_db register_first register_second
              (credentials "a@club.example" "first")
              (credentials "a@club.example" "second")
              "a@club.example" "first" "second"
              eq_refl eq_refl eq_refl eq_refl eq_refl eq_refl
              eq_refl eq_refl eq_refl eq_refl)
    as [st2 [u1 [u2 [Hrun [Husers [He1 [He2 [Hid _]]]]]]]].
  exists st2, u1, u2. repeat split; assumption.
Defined.

Lemma authorization_scheme_not_checked_witness :
  jwt_verify admin_token JWT_SECRET (now clock) = Some admin
  /\ (exists st' op res,
        app clock empty_db post_club_basic_scheme
        = (st', [ReadBody; VerifyToken admin_token; Db op], Sent res)
        /\ In (status res) [200; 201; 204])
  /\ app clock empty_db post_club_bare_token
     = (empty_db, [ReadBody], Sent (mkResponse 401 (Text "Unauthorized"))).
Proof.
  assert (Hv : jwt_verify admin_token JWT_SECRET (now clock) = Some admin)
    by (vm_compute; reflexivity).
  assert (Hns : no_char " " admin_token = true) by (vm_compute; reflexivity).
  assert (Hne : admin_token <> "") by (vm_compute; discriminate).
  split; [exact Hv|]. split.
  - destruct (proj1 authorization_scheme_not_checked clock empty_db
                post_club_basic_scheme "Basic" admin_token admin
                eq_refl eq_refl eq_refl eq_refl Hns Hne Hv)
      as [_ [st' [ev [out [E [_ [_ Hok]]]]]]].
    destruct (Hok eq_refl) as [op [res [-> [-> Hs]]]].
    exists st', op, res. split; [exact E|exact Hs].
  - apply (proj2 authorization_scheme_not_checked clock empty_db
                 post_club_bare_token admin_token);
      try reflexivity; assumption.
Defined.
End Runs.

(** ** Every way a request can go *)

Section Cases.
Context {jwt : Jwt} {bcrypt : Bcrypt} {process : ProcessEnv}.

(** A property of the application's result holds as soon as it holds of
    the five ways the chain can go: body rejected, no token, token refused,
    handler of a mutating route reached, route without authentication. *)
Lemma app_cases env st r (P : State * list Event * Outcome -> Prop) :
  (payload r = BadJson ->
   P (st, [ReadBody], Sent (mkResponse 400 (Text "Bad Request")))) ->
  (parses (payload r) = true -> mutating r = true ->
   authenticated env r = false ->
   truthy_string (token_of (authorization r)) = false ->
   P (st, read_events (payload r), Sent (res_sendStatus 401))) ->
  (forall t,
      parses (payload r) = true -> mutating r = true ->
      authenticated env r = false ->
      token_of (authorization r) = Some t -> t <> "" ->
      jwt_verify t JWT_SECRET (now env) = None ->
      P (st, (read_events (payload r) ++ [VerifyToken t])%list,
         Sent (res_sendStatus 403))) ->
  (forall t u h,
      parses (payload r) = true -> mutating r = true ->
      authenticated env r = true ->
      token_of (authorization r) = Some t ->
      route (method r) (path r) = [authenticateToken; h] ->
      P (let '(st', ev, step) :=
           h env st (mkCtx r (parsed_body (payload r)) (Some u)) in
         (st', (read_events (payload r) ++ VerifyToken t :: ev)%list,
          match step with
          | Next _ => Sent (mkResponse 404 (Text "Not Found"))
          | Respond res => Sent res
          | Reject e => Unhandled e
          end))) ->
  (parses (payload r) = true -> mutating r = false ->
   P (let '(st', ev, out) :=
        run (route (method r) (path r)) env st
            (mkCtx r (parsed_body (payload r)) None) in
      (st', (read_events (payload r) ++ ev)%list, out))) ->
  P (app env st r).
Proof.
  intros Hbad Hno Hrej Hacc Hopen.
  destruct (parses (payload r)) eqn:Hp.
  2:{ destruct (payload r) eqn:E; try discriminate.
      rewrite (app_bad_json env st r E). now apply Hbad. }
  destruct (mutating r) eqn:Hm.
  2:{ rewrite (app_parsed env st r Hp). now apply Hopen. }
  destruct (truthy_string (token_of (authorization r))) eqn:Et.
  - destruct (token_of (authorization r)) as [t|] eqn:Ht; [|discriminate].
    simpl in Et. apply negb_true_iff in Et.
    assert (Hne : t <> "") by now apply String.eqb_neq.
    destruct (jwt_verify t JWT_SECRET (now env)) as [u|] eqn:Hv.
    + destruct (route_mutating r Hm) as [h [Hr _]].
      rewrite (app_mutating_accepted env st r t u Hp Ht Hne Hv h Hr).
      apply Hacc; trivial. unfold authenticated. now rewrite Ht, Et, Hv.
    + rewrite (app_mutating_rejected env st r t Hm Hp Ht Hne Hv).
      apply Hrej; trivial. unfold authenticated. now rewrite Ht, Et, Hv.
  - rewrite (app_mutating_no_token env st r Hm Hp Et).
    apply Hno; trivial. unfold authenticated.
    destruct (token_of (authorization r)) as [t|]; [|reflexivity].
    simpl in Et. apply negb_false_iff in Et. now rewrite Et.
Qed.
End Cases.

(** ** What a request can change *)

Ltac handler_cases r Hm Hr :=
  destruct r as [m p a pl]; unfold mutating in Hm; simpl in *;
  destruct m, p; try discriminate;
  try (injection Hr as <-);
  cbn [run route method path];
  unfold post_api_clubs, post_api_players, post_api_standings,
    put_api_clubs_id, put_api_players_id, put_api_standings_id,
    delete_api_clubs_id, delete_api_players_id, delete_api_standings_id,
    post_api_register, post_api_login, cast_error;
  cbn [body req].

Ltac account_cases :=
  repeat match goal with
         | |- context [Body.password ?b] => destruct (Body.password b) eqn:?
         | |- context [findOne_email ?e ?c] => destruct (findOne_email e c) eqn:?
         | |- context [User.password ?u] => destruct (User.password u) eqn:?
         | |- context [bcrypt_compare ?x ?y] => destruct (bcrypt_compare x y) eqn:?
         end.

Section Frame.
Context {jwt : Jwt} {bcrypt : Bcrypt} {process : ProcessEnv}.

Lemma app_frame env st r :
  let st' := fst (fst (app env st r)) in
  (method r = GET \/ path r = api_login -> st' = st)
  /\ (collection (path r) <> Some Clubs -> clubs st' = clubs st)
  /\ (collection (path r) <> Some Players -> players st' = players st)
  /\ (collection (path r) <> Some Standings -> standings st' = standings st)
  /\ (collection (path r) <> Some Users -> users st' = users st).
Proof.
  apply (app_cases env st r
           (fun res =>
              let st' := fst (fst res) in
              (method r = GET \/ path r = api_login -> st' = st)
              /\ (collection (path r) <> Some Clubs -> clubs st' = clubs st)
              /\ (collection (path r) <> Some Players -> players st' = players st)
              /\ (collection (path r) <> Some Standings ->
                  standings st' = standings st)
              /\ (collection (path r) <> Some Users -> users st' = users st)));
    try (intros; simpl; tauto).
  - intros t u h Hp Hm Ha Ht Hr.
    handler_cases r Hm Hr;
      try (destruct (findByIdAndUpdate _ _ _ _));
      simpl; repeat split; intros H; try reflexivity;
      try (destruct H; discriminate); try (exfalso; apply H; reflexivity).
  - intros Hp Hm.
    handler_cases r Hm Hm; simpl; account_cases;
      simpl; repeat split; intros H; try reflexivity;
      try (destruct H; discriminate); try (exfalso; apply H; reflexivity).
Qed.

(** X1.  A GET request and a login never change the state, whatever they
    carry; every other request changes at most the collection its path
    addresses: a request on a clubs path leaves players, standings and
    users as they were, and so on for each collection. *)
Theorem request_changes_only_its_collection env st r :
  let st' := fst (fst (app env st r)) in
  (method r = GET \/ path r = api_login -> st' = st)
  /\ (collection (path r) <> Some Clubs -> clubs st' = clubs st)
  /\ (collection (path r) <> Some Players -> players st' = players st)
  /\ (collection (path r) <> Some Standings -> standings st' = standings st)
  /\ (collection (path r) <> Some Users -> users st' = users st).
Proof. exact (app_frame env st r). Qed.

(** A request without a token that [jwt.verify] accepts leaves the three
    resource collections as they were. *)
Lemma app_unauthenticated env st r :
  authenticated env r = false ->
  let st' := fst (fst (app env st r)) in
  clubs st' = clubs st /\ players st' = players st
  /\ standings st' = standings st.
Proof.
  intros Hna.
  apply (app_cases env st r
           (fun res =>
              let st' := fst (fst res) in
              clubs st' = clubs st /\ players st' = players st
              /\ standings st' = standings st));
    try (intros; simpl; tauto).
  - intros t u h _ _ Ha. congruence.
  - intros Hp Hm.
    handler_cases r Hm Hm; simpl; account_cases; simpl; repeat split.
Qed.

(** X2.  Without a token that verifies, no sequence of requests changes a
    club, a player or a standing: whatever is served, if none of the
    requests carries a token [jwt.verify] accepts at its arrival, the three
    resource collections end as they started. *)
Theorem resources_change_only_with_a_valid_token st rs :
  (forall env r, In (env, r) rs -> authenticated env r = false) ->
  let st' := fst (serve st rs) in
  clubs st' = clubs st /\ players st' = players st
  /\ standings st' = standings st.
Proof.
  revert st. induction rs as [|[env r] rest IH]; intros st Hall; simpl.
  - repeat split.
  - pose proof (app_unauthenticated env st r (Hall env r (or_introl eq_refl)))
      as [Hc [Hp Hs]].
    destruct (app env st r) as [[st1 ev] out]. simpl in Hc, Hp, Hs.
    destruct out as [res|e]; [|simpl; repeat split; assumption].
    pose proof (IH st1 (fun e q H => Hall e q (or_intror H))) as [Hc2 [Hp2 Hs2]].
    destruct (serve st1 rest) as [st2 outs]. simpl in *.
    repeat split; congruence.
Qed.
End Frame.

(** ** The users collection and login *)

Section Credentials.
Context {jwt : Jwt} {bcrypt : Bcrypt} {process : ProcessEnv}.

(** One request either leaves the users as they were, or is a
    registration with a password and appends the one user made of the
    email and the hash. *)
Lemma app_users_step env st r :
  users (fst (fst (app env st r))) = users st
  \/ exists b password,
      method r = POST /\ path r = api_register /\ payload r = Json b
      /\ Body.password b = Some password
      /\ users (fst (fst (app env st r)))
         = (users st
            ++ [User.mk (next_oid st) (Body.email b)
                        (Some (bcrypt_hash password 10 (salt env)))])%list.
Proof.
  destruct (app_frame env st r) as [_ [_ [_ [_ Hu]]]].
  destruct (path r) eqn:Epath;
    try (left; apply Hu; discriminate).
  destruct (method r) eqn:Em;
    try (left; unfold app; rewrite Em, Epath; simpl; unfold express_json;
         simpl; destruct (payload r); reflexivity).
  destruct (payload r) as [| |b] eqn:Epl.
  - left. unfold app. rewrite Em, Epath. simpl. unfold express_json. simpl.
    rewrite Epl. reflexivity.
  - left. now rewrite (app_bad_json env st r Epl).
  - destruct (Body.password b) as [pw|] eqn:Epw.
    + right. exists b, pw. repeat split; trivial.
      now rewrite (app_register env st r b pw Em Epath Epl Epw).
    + left. unfold app. rewrite Em, Epath. simpl. unfold express_json. simpl.
      rewrite Epl. simpl. unfold post_api_register. cbn [body req].
      now rewrite Epw.
Qed.

(** X3.  Users are never updated or deleted, and a password is never
    stored as given: over any sequence of requests the users collection
    only grows at its end, and every user added holds as password the
    result of [bcrypt.hash] with cost 10. *)
Theorem users_only_added_and_always_hashed st rs :
  exists added,
    users (fst (serve st rs)) = (users st ++ added)%list
    /\ Forall (fun u => exists password salt,
                   User.password u = Some (bcrypt_hash password 10 salt))
              added.
Proof.
  revert st. induction rs as [|[env r] rest IH]; intros st; simpl.
  - exists []. split; [now rewrite app_nil_r|constructor].
  - pose proof (app_users_step env st r) as Hstep.
    destruct (app env st r) as [[st1 ev] out]. simpl in Hstep.
    destruct out as [res|e].
    2:{ simpl. destruct Hstep as [Hsame|[b [pw [_ [_ [_ [_ Hnew]]]]]]].
        - exists []. split; [now rewrite app_nil_r|constructor].
        - eexists [_]. split; [exact Hnew|].
          constructor; [simpl; eauto|constructor]. }
    destruct (IH st1) as [more [Hmore Hhashed]].
    destruct (serve st1 rest) as [st2 outs]. simpl in *.
    destruct Hstep as [Hsame|[b [pw [_ [_ [_ [_ Hnew]]]]]]].
    + exists more. split; [congruence|exact Hhashed].
    + eexists (_ :: more). split.
      * rewrite Hmore, Hnew, <- app_assoc. reflexivity.
      * constructor; [|exact Hhashed]. simpl. eauto.
Qed.



(** X5.  An unknown email and a wrong password cannot be told apart: a
    login with a password whose email matches no stored user, and a login
    whose password [bcrypt.compare] refuses for the first user with that
    email, get the same answer, 400 with [Invalid credentials], the same
    trace, no token, and leave the store unchanged. *)
Theorem login_failures_are_indistinguishable env st r b password :
  method r = POST -> path r = api_login -> payload r = Json b ->
  Body.password b = Some password ->
  (findOne_email (Body.email b) (users st) = None
   \/ exists u hash,
       findOne_email (Body.email b) (users st) = Some u
       /\ User.password u = Some hash
       /\ bcrypt_compare password hash = false) ->
  app env st r
  = (st, [ReadBody; Db FindOne],
     Sent (mkResponse 400 (JsonError "Invalid credentials"))).
Proof.
  intros Hm Hpath Hpl Hpw Hfail.
  unfold app. rewrite Hm, Hpath. simpl. unfold express_json. simpl.
  rewrite Hpl. simpl. unfold post_api_login. cbn [body req].
  destruct Hfail as [Hnone|[u [h [Hu [Hh Hcmp]]]]].
  - now rewrite Hnone.
  - now rewrite Hu, Hpw, Hh, Hcmp.
Qed.
End Credentials.

(** ** Create, list, delete *)

Lemma set_path_twice {A} (sent stored : option A) :
  set_path sent (set_path sent stored) = set_path sent stored.
Proof. now destruct sent. Qed.

Lemma findByIdAndUpdate_twice {D} (id_of : D -> oid) id update c :
  (forall d, id_of (update d) = id_of d) ->
  (forall d, update (update d) = update d) ->
  findByIdAndUpdate id_of id update (fst (findByIdAndUpdate id_of id update c))
  = findByIdAndUpdate id_of id update c.
Proof.
  intros Hid Hup. induction c as [|d r IH]; simpl; [reflexivity|].
  destruct (N.eqb_spec (id_of d) id) as [E|E]; simpl.
  - rewrite Hid. destruct (N.eqb_spec (id_of d) id); [|contradiction].
    now rewrite Hup.
  - destruct (findByIdAndUpdate id_of id update r) as [r' o] eqn:Er.
    simpl in *. destruct (N.eqb_spec (id_of d) id); [contradiction|].
    now rewrite IH.
Qed.

Lemma fresh_ids_next next ids : fresh_ids next ids -> ~ In next ids.
Proof. intros [_ Hb] Hin. apply Hb in Hin. lia. Qed.

Section Lifecycle.
Context {jwt : Jwt} {bcrypt : Bcrypt} {process : ProcessEnv}.

Lemma app_post_club env st r :
  method r = POST -> path r = api_clubs ->
  parses (payload r) = true -> authenticated env r = true ->
  exists t,
    app env st r
    = (mkState (clubs st ++ [Club.create (next_oid st) (parsed_body (payload r))])
               (players st) (standings st) (users st) (N.succ (next_oid st)),
       (read_events (payload r) ++ [VerifyToken t; Db Save])%list,
       Sent (mkResponse 201
               (JsonClub (Some (Club.create (next_oid st)
                                            (parsed_body (payload r))))))).
Proof.
  intros Hm Hpath Hp Ha.
  destruct (app_authenticated env st r post_api_clubs Hp Ha)
    as [t [u [_ [_ E]]]]; [now rewrite Hm, Hpath|].
  exists t. rewrite E. reflexivity.
Qed.

Lemma app_post_player env st r :
  method r = POST -> path r = api_players ->
  parses (payload r) = true -> authenticated env r = true ->
  exists t,
    app env st r
    = (mkState (clubs st)
               (players st ++ [Player.create (next_oid st) (parsed_body (payload r))])
               (standings st) (users st) (N.succ (next_oid st)),
       (read_events (payload r) ++ [VerifyToken t; Db Save])%list,
       Sent (mkResponse 201
               (JsonPlayer (Some (Player.create (next_oid st)
                                                (parsed_body (payload r))))))).
Proof.
  intros Hm Hpath Hp Ha.
  destruct (app_authenticated env st r post_api_players Hp Ha)
    as [t [u [_ [_ E]]]]; [now rewrite Hm, Hpath|].
  exists t. rewrite E. reflexivity.
Qed.

Lemma app_post_standing env st r :
  method r = POST -> path r = api_standings ->
  parses (payload r) = true -> authenticated env r = true ->
  exists t,
    app env st r
    = (mkState (clubs st) (players st)
               (standings st
                ++ [Standing.create (next_oid st) (parsed_body (payload r))])
               (users st) (N.succ (next_oid st)),
       (read_events (payload r) ++ [VerifyToken t; Db Save])%list,
       Sent (mkResponse 201
               (JsonStanding (Some (Standing.create (next_oid st)
                                                    (parsed_body (payload r))))))).
Proof.
  intros Hm Hpath Hp Ha.
  destruct (app_authenticated env st r post_api_standings Hp Ha)
    as [t [u [_ [_ E]]]]; [now rewrite Hm, Hpath|].
  exists t. rewrite E. reflexivity.
Qed.

Lemma app_get_clubs env st r :
  method r = GET -> path r = api_clubs -> parses (payload r) = true ->
  app env st r
  = (st, (read_events (payload r) ++ [Db Find])%list,
     Sent (mkResponse 200 (JsonClubs (clubs st)))).
Proof.
  intros Hm Hpath Hp. rewrite (app_parsed _ _ _ Hp), Hm, Hpath. reflexivity.
Qed.

Lemma app_get_players env st r :
  method r = GET -> path r = api_players -> parses (payload r) = true ->
  app env st r
  = (st, (read_events (payload r) ++ [Db Find])%list,
     Sent (mkResponse 200 (JsonPlayers (players st)))).
Proof.
  intros Hm Hpath Hp. rewrite (app_parsed _ _ _ Hp), Hm, Hpath. reflexivity.
Qed.

(** X6.  Create then list.  For a body of schema-typed values that names
    no [_id]: an authenticated POST of a club answers 201 with a record,
    and a GET /api/clubs after it, without any token, answers 200 with the
    clubs stored before followed by that same record.  The same holds of
    players; for standings the list holds one row more, among them the
    display row of the record the POST answered. *)
Theorem created_record_is_listed :
  (forall env1 env2 st r1 r2,
      method r1 = POST -> path r1 = api_clubs ->
      parses (payload r1) = true -> authenticated env1 r1 = true ->
      method r2 = GET -> path r2 = api_clubs -> parses (payload r2) = true ->
      exists c,
        snd (serve st [(env1, r1); (env2, r2)])
        = [Sent (mkResponse 201 (JsonClub (Some c)));
           Sent (mkResponse 200 (JsonClubs (clubs st ++ [c])))])
  /\ (forall env1 env2 st r1 r2,
      method r1 = POST -> path r1 = api_players ->
      parses (payload r1) = true -> authenticated env1 r1 = true ->
      method r2 = GET -> path r2 = api_players -> parses (payload r2) = true ->
      exists c,
        snd (serve st [(env1, r1); (env2, r2)])
        = [Sent (mkResponse 201 (JsonPlayer (Some c)));
           Sent (mkResponse 200 (JsonPlayers (players st ++ [c])))])
  /\ (forall env1 env2 st r1 r2,
      method r1 = POST -> path r1 = api_standings ->
      parses (payload r1) = true -> authenticated env1 r1 = true ->
      method r2 = GET -> path r2 = api_standings -> parses (payload r2) = true ->
      exists c rows,
        snd (serve st [(env1, r1); (env2, r2)])
        = [Sent (mkResponse 201 (JsonStanding (Some c)));
           Sent (mkResponse 200 (JsonRows rows))]
        /\ In (mapped c) rows
        /\ List.length rows = S (List.length (standings st))).
Proof.
  split; [|split]; intros env1 env2 st r1 r2 Hm1 Hpath1 Hp1 Ha1 Hm2 Hpath2 Hp2.
  - destruct (app_post_club env1 st r1 Hm1 Hpath1 Hp1 Ha1) as [t E].
    eexists. simpl. rewrite E, (app_get_clubs env2 _ r2 Hm2 Hpath2 Hp2).
    reflexivity.
  - destruct (app_post_player env1 st r1 Hm1 Hpath1 Hp1 Ha1) as [t E].
    eexists. simpl. rewrite E, (app_get_players env2 _ r2 Hm2 Hpath2 Hp2).
    reflexivity.
  - destruct (app_post_standing env1 st r1 Hm1 Hpath1 Hp1 Ha1) as [t E].
    do 2 eexists.
    simpl. rewrite E, (app_get_standings env2 _ r2 Hm2 Hpath2 Hp2). simpl.
    split; [reflexivity|].
    pose proof (sort_points_desc_perm
                  (standings st
                   ++ [Standing.create (next_oid st) (parsed_body (payload r1))]))
      as Hperm.
    split.
    + apply in_map. apply (Permutation_in _ (Permutation_sym Hperm)).
      apply in_app_iff. right. now left.
    + rewrite List.length_map, (Permutation_length Hperm), List.length_app.
      simpl. lia.
Qed.
End Lifecycle.

Section Removal.
Context {jwt : Jwt} {bcrypt : Bcrypt} {process : ProcessEnv}.

Lemma app_delete_club env st r id :
  method r = DELETE -> path r = api_clubs_id id ->
  parses (payload r) = true -> authenticated env r = true ->
  exists t,
    app env st r
    = (mkState (findByIdAndDelete Club._id id (clubs st)) (players st)
               (standings st) (users st) (next_oid st),
       (read_events (payload r) ++ [VerifyToken t; Db Remove])%list,
       Sent (mkResponse 204 Empty)).
Proof.
  intros Hm Hpath Hp Ha.
  destruct (app_authenticated env st r (delete_api_clubs_id id) Hp Ha)
    as [t [u [_ [_ E]]]]; [now rewrite Hm, Hpath|].
  exists t. rewrite E. reflexivity.
Qed.

Lemma app_delete_player env st r id :
  method r = DELETE -> path r = api_players_id id ->
  parses (payload r) = true -> authenticated env r = true ->
  exists t,
    app env st r
    = (mkState (clubs st) (findByIdAndDelete Player._id id (players st))
               (standings st) (users st) (next_oid st),
       (read_events (payload r) ++ [VerifyToken t; Db Remove])%list,
       Sent (mkResponse 204 Empty)).
Proof.
  intros Hm Hpath Hp Ha.
  destruct (app_authenticated env st r (delete_api_players_id id) Hp Ha)
    as [t [u [_ [_ E]]]]; [now rewrite Hm, Hpath|].
  exists t. rewrite E. reflexivity.
Qed.

Lemma app_delete_standing env st r id :
  method r = DELETE -> path r = api_standings_id id ->
  parses (payload r) = true -> authenticated env r = true ->
  exists t,
    app env st r
    = (mkState (clubs st) (players st)
               (findByIdAndDelete Standing._id id (standings st))
               (users st) (next_oid st),
       (read_events (payload r) ++ [VerifyToken t; Db Remove])%list,
       Sent (mkResponse 204 Empty)).
Proof.
  intros Hm Hpath Hp Ha.
  destruct (app_authenticated env st r (delete_api_standings_id id) Hp Ha)
    as [t [u [_ [_ E]]]]; [now rewrite Hm, Hpath|].
  exists t. rewrite E. reflexivity.
Qed.

(** X7.  An authenticated DELETE removes the record with the id and
    nothing else: the records before and after it keep their order and
    content, the other collections are untouched, the answer is 204
    without body; and where identifiers are stored once, no record with
    that id is left.  Clubs, players and standings alike. *)
Theorem delete_removes_exactly_the_record :
  (forall env st r id pre c post,
      method r = DELETE -> path r = api_clubs_id id ->
      parses (payload r) = true -> authenticated env r = true ->
      clubs st = (pre ++ c :: post)%list ->
      Club._id c = id -> ~ In id (map Club._id pre) ->
      exists t,
        app env st r
        = (mkState (pre ++ post) (players st) (standings st) (users st)
                   (next_oid st),
           (read_events (payload r) ++ [VerifyToken t; Db Remove])%list,
           Sent (mkResponse 204 Empty))
        /\ (NoDup (map Club._id (clubs st)) ->
            ~ In id (map Club._id (pre ++ post))))
  /\ (forall env st r id pre c post,
      method r = DELETE -> path r = api_players_id id ->
      parses (payload r) = true -> authenticated env r = true ->
      players st = (pre ++ c :: post)%list ->
      Player._id c = id -> ~ In id (map Player._id pre) ->
      exists t,
        app env st r
        = (mkState (clubs st) (pre ++ post) (standings st) (users st)
                   (next_oid st),
           (read_events (payload r) ++ [VerifyToken t; Db Remove])%list,
           Sent (mkResponse 204 Empty))
        /\ (NoDup (map Player._id (players st)) ->
            ~ In id (map Player._id (pre ++ post))))
  /\ (forall env st r id pre c post,
      method r = DELETE -> path r = api_standings_id id ->
      parses (payload r) = true -> authenticated env r = true ->
      standings st = (pre ++ c :: post)%list ->
      Standing._id c = id -> ~ In id (map Standing._id pre) ->
      exists t,
        app env st r
        = (mkState (clubs st) (players st) (pre ++ post) (users st)
                   (next_oid st),
           (read_events (payload r) ++ [VerifyToken t; Db Remove])%list,
           Sent (mkResponse 204 Empty))
        /\ (NoDup (map Standing._id (standings st)) ->
            ~ In id (map Standing._id (pre ++ post)))).
Proof.
  split; [|split]; intros env st r id pre c post Hm Hpath Hp Ha Hc Hid Hpre.
  - destruct (app_delete_club env st r id Hm Hpath Hp Ha) as [t E].
    exists t. rewrite E, Hc.
    rewrite (findByIdAndDelete_present Club._id id pre c post Hid Hpre).
    split; [reflexivity|]. intros Hnd.
    rewrite <- (findByIdAndDelete_present Club._id id pre c post Hid Hpre).
    now apply findByIdAndDelete_gone.
  - destruct (app_delete_player env st r id Hm Hpath Hp Ha) as [t E].
    exists t. rewrite E, Hc.
    rewrite (findByIdAndDelete_present Player._id id pre c post Hid Hpre).
    split; [reflexivity|]. intros Hnd.
    rewrite <- (findByIdAndDelete_present Player._id id pre c post Hid Hpre).
    now apply findByIdAndDelete_gone.
  - destruct (app_delete_standing env st r id Hm Hpath Hp Ha) as [t E].
    exists t. rewrite E, Hc.
    rewrite (findByIdAndDelete_present Standing._id id pre c post Hid Hpre).
    split; [reflexivity|]. intros Hnd.
    rewrite <- (findByIdAndDelete_present Standing._id id pre c post Hid Hpre).
    now apply findByIdAndDelete_gone.
Qed.

(** X8.  Create then delete.  An authenticated POST followed by an
    authenticated DELETE of the identifier the POST returned answers 201
    then 204 and leaves every collection as it was before the two
    requests; only the identifier is spent.  Clubs, players and standings
    alike, in every state whose identifiers were drawn from the counter. *)
Theorem create_then_delete_restores_the_store :
  (forall env1 env2 st r1 r2,
      method r1 = POST -> path r1 = api_clubs ->
      parses (payload r1) = true -> authenticated env1 r1 = true ->
      method r2 = DELETE -> path r2 = api_clubs_id (next_oid st) ->
      parses (payload r2) = true -> authenticated env2 r2 = true ->
      ids_fresh st ->
      serve st [(env1, r1); (env2, r2)]
      = (mkState (clubs st) (players st) (standings st) (users st)
                 (N.succ (next_oid st)),
         [Sent (mkResponse 201
                  (JsonClub (Some (Club.create (next_oid st)
                                               (parsed_body (payload r1))))));
          Sent (mkResponse 204 Empty)]))
  /\ (forall env1 env2 st r1 r2,
      method r1 = POST -> path r1 = api_players ->
      parses (payload r1) = true -> authenticated env1 r1 = true ->
      method r2 = DELETE -> path r2 = api_players_id (next_oid st) ->
      parses (payload r2) = true -> authenticated env2 r2 = true ->
      ids_fresh st ->
      serve st [(env1, r1); (env2, r2)]
      = (mkState (clubs st) (players st) (standings st) (users st)
                 (N.succ (next_oid st)),
         [Sent (mkResponse 201
                  (JsonPlayer (Some (Player.create (next_oid st)
                                                   (parsed_body (payload r1))))));
          Sent (mkResponse 204 Empty)]))
  /\ (forall env1 env2 st r1 r2,
      method r1 = POST -> path r1 = api_standings ->
      parses (payload r1) = true -> authenticated env1 r1 = true ->
      method r2 = DELETE -> path r2 = api_standings_id (next_oid st) ->
      parses (payload r2) = true -> authenticated env2 r2 = true ->
      ids_fresh st ->
      serve st [(env1, r1); (env2, r2)]
      = (mkState (clubs st) (players st) (standings st) (users st)
                 (N.succ (next_oid st)),
         [Sent (mkResponse 201
                  (JsonStanding (Some (Standing.create (next_oid st)
                                                       (parsed_body (payload r1))))));
          Sent (mkResponse 204 Empty)])).
Proof.
  split; [|split]; intros env1 env2 st r1 r2 Hm1 Hpath1 Hp1 Ha1 Hm2 Hpath2 Hp2 Ha2
                          [Hfc [Hfp [Hfs _]]].
  - destruct (app_post_club env1 st r1 Hm1 Hpath1 Hp1 Ha1) as [t1 E1].
    simpl. rewrite E1.
    destruct (app_delete_club env2
                (mkState (clubs st ++ [Club.create (next_oid st) (parsed_body (payload r1))])
                         (players st) (standings st) (users st) (N.succ (next_oid st)))
                r2 (next_oid st) Hm2 Hpath2 Hp2 Ha2) as [t2 E2].
    rewrite E2. simpl.
    rewrite (findByIdAndDelete_present Club._id (next_oid st) (clubs st)
               (Club.create (next_oid st) (parsed_body (payload r1))) []
               eq_refl (fresh_ids_next _ _ Hfc)), app_nil_r.
    reflexivity.
  - destruct (app_post_player env1 st r1 Hm1 Hpath1 Hp1 Ha1) as [t1 E1].
    simpl. rewrite E1.
    destruct (app_delete_player env2
                (mkState (clubs st)
                         (players st ++ [Player.create (next_oid st) (parsed_body (payload r1))])
                         (standings st) (users st) (N.succ (next_oid st)))
                r2 (next_oid st) Hm2 Hpath2 Hp2 Ha2) as [t2 E2].
    rewrite E2. simpl.
    rewrite (findByIdAndDelete_present Player._id (next_oid st) (players st)
               (Player.create (next_oid st) (parsed_body (payload r1))) []
               eq_refl (fresh_ids_next _ _ Hfp)), app_nil_r.
    reflexivity.
  - destruct (app_post_standing env1 st r1 Hm1 Hpath1 Hp1 Ha1) as [t1 E1].
    simpl. rewrite E1.
    destruct (app_delete_standing env2
                (mkState (clubs st) (players st)
                         (standings st ++ [Standing.create (next_oid st) (parsed_body (payload r1))])
                         (users st) (N.succ (next_oid st)))
                r2 (next_oid st) Hm2 Hpath2 Hp2 Ha2) as [t2 E2].
    rewrite E2. simpl.
    rewrite (findByIdAndDelete_present Standing._id (next_oid st) (standings st)
               (Standing.create (next_oid st) (parsed_body (payload r1))) []
               eq_refl (fresh_ids_next _ _ Hfs)), app_nil_r.
    reflexivity.
Qed.
End Removal.

(** ** Update keeps the collection's shape *)

Lemma Club_set_twice b d : Club.set b (Club.set b d) = Club.set b d.
Proof. unfold Club.set. simpl. now rewrite !set_path_twice. Qed.

Lemma Player_set_twice b d : Player.set b (Player.set b d) = Player.set b d.
Proof. unfold Player.set. simpl. now rewrite !set_path_twice. Qed.

Lemma Standing_set_twice b d :
  Standing.set b (Standing.set b d) = Standing.set b d.
Proof. unfold Standing.set. simpl. now rewrite !set_path_twice. Qed.

Section Updates.
Context {jwt : Jwt} {bcrypt : Bcrypt} {process : ProcessEnv}.

(** X9.  PUT never creates and never removes a record: whatever a PUT
    request carries and whether or not its id matches, every collection
    holds the same identifiers in the same order afterwards, and no
    identifier is drawn. *)
Theorem put_keeps_every_identifier env st r :
  method r = PUT ->
  let st' := fst (fst (app env st r)) in
  (forall p, ids_at p st' = ids_at p st) /\ next_oid st' = next_oid st.
Proof.
  intros Hput.
  apply (app_cases env st r
           (fun res =>
              let st' := fst (fst res) in
              (forall p, ids_at p st' = ids_at p st)
              /\ next_oid st' = next_oid st));
    try (intros; simpl; split; reflexivity).
  - intros t u h Hp Hm Ha Ht Hr.
    handler_cases r Hm Hr; try (simpl; split; reflexivity);
      match goal with
      | |- context [findByIdAndUpdate ?f ?i ?g ?c] =>
          pose proof (findByIdAndUpdate_ids f i g c) as Hids;
          destruct (findByIdAndUpdate f i g c) as [c' o]
      end;
      simpl in *; (split; [|reflexivity]);
      intros q; destruct q; simpl; try reflexivity;
      apply Hids; intros []; reflexivity.
  - intros Hp Hm.
    handler_cases r Hm Hm; simpl; split; reflexivity.
Qed.

(** X10.  An update whose body assigns plain values to schema fields (a
    [Body.t]: strings and numbers under the schema's paths, no update
    operator such as [$inc] or [$push]), applied twice, is the update
    applied once: of two authenticated PUTs of one such request in a row,
    to an id that is the text of an ObjectId, the second leaves the store
    as the first left it and answers what the first answered, be it the
    updated record or null. *)
Theorem update_twice_is_update_once env1 env2 st r id :
  method r = PUT -> id_of_path (path r) = Some id ->
  parses (payload r) = true ->
  authenticated env1 r = true -> authenticated env2 r = true ->
  exists st1 ev1 ev2 out,
    app env1 st r = (st1, ev1, out) /\ app env2 st1 r = (st1, ev2, out).
Proof.
  intros Hm Hpath Hp Ha1 Ha2.
  destruct (path r) eqn:Epath; try discriminate; injection Hpath as ->.
  - destruct (app_authenticated env1 st r (put_api_clubs_id id) Hp Ha1)
      as [t1 [u1 [_ [_ E1]]]]; [now rewrite Hm, Epath|].
    unfold put_api_clubs_id in E1. cbn [body req] in E1.
    pose proof (findByIdAndUpdate_twice Club._id id
                  (Club.set (parsed_body (payload r))) (clubs st)
                  (fun d => eq_refl) (Club_set_twice _)) as Htwice.
    destruct (findByIdAndUpdate Club._id id _ (clubs st)) as [c1 o1].
    simpl in Htwice.
    destruct (app_authenticated env2
                (mkState c1 (players st) (standings st) (users st) (next_oid st))
                r (put_api_clubs_id id) Hp Ha2)
      as [t2 [u2 [_ [_ E2]]]]; [now rewrite Hm, Epath|].
    unfold put_api_clubs_id in E2. cbn [body req clubs players standings
                                          users next_oid] in E2.
    rewrite Htwice in E2. do 4 eexists. split; [exact E1|exact E2].
  - destruct (app_authenticated env1 st r (put_api_players_id id) Hp Ha1)
      as [t1 [u1 [_ [_ E1]]]]; [now rewrite Hm, Epath|].
    unfold put_api_players_id in E1. cbn [body req] in E1.
    pose proof (findByIdAndUpdate_twice Player._id id
                  (Player.set (parsed_body (payload r))) (players st)
                  (fun d => eq_refl) (Player_set_twice _)) as Htwice.
    destruct (findByIdAndUpdate Player._id id _ (players st)) as [c1 o1].
    simpl in Htwice.
    destruct (app_authenticated env2
                (mkState (clubs st) c1 (standings st) (users st) (next_oid st))
                r (put_api_players_id id) Hp Ha2)
      as [t2 [u2 [_ [_ E2]]]]; [now rewrite Hm, Epath|].
    unfold put_api_players_id in E2. cbn [body req clubs players standings
                                            users next_oid] in E2.
    rewrite Htwice in E2. do 4 eexists. split; [exact E1|exact E2].
  - destruct (app_authenticated env1 st r (put_api_standings_id id) Hp Ha1)
      as [t1 [u1 [_ [_ E1]]]]; [now rewrite Hm, Epath|].
    unfold put_api_standings_id in E1. cbn [body req] in E1.
    pose proof (findByIdAndUpdate_twice Standing._id id
                  (Standing.set (parsed_body (payload r))) (standings st)
                  (fun d => eq_refl) (Standing_set_twice _)) as Htwice.
    destruct (findByIdAndUpdate Standing._id id _ (standings st)) as [c1 o1].
    simpl in Htwice.
    destruct (app_authenticated env2
                (mkState (clubs st) (players st) c1 (users st) (next_oid st))
                r (put_api_standings_id id) Hp Ha2)
      as [t2 [u2 [_ [_ E2]]]]; [now rewrite Hm, Epath|].
    unfold put_api_standings_id in E2. cbn [body req clubs players standings
                                              users next_oid] in E2.
    rewrite Htwice in E2. do 4 eexists. split; [exact E1|exact E2].
Qed.

End Updates.

(** ** The token read from the header *)

Lemma split_pieces_no_sep (sep : ascii) (s : string) :
  Forall (fun w => no_char sep w = true) (split sep s).
Proof.
  induction s as [|c r IH]; simpl; [repeat constructor|].
  destruct (Ascii.eqb c sep) eqn:E.
  - constructor; [reflexivity|exact IH].
  - destruct (split sep r) as [|w ws]; [repeat constructor; simpl; now rewrite E|].
    inversion IH as [|x l Hw Hws]; subst.
    constructor; [simpl; now rewrite E, Hw|exact Hws].
Qed.

Section Header.
Context {jwt : Jwt} {bcrypt : Bcrypt} {process : ProcessEnv}.

(** X12.  What [authenticateToken] hands to [jwt.verify] is always the
    second space-separated word of the Authorization header, never empty
    and free of spaces; whatever follows a second space is ignored, so a
    header of three words authenticates as its second word. *)
Theorem verified_token_is_the_second_word :
  (forall env st ctx st' ev step t,
      authenticateToken env st ctx = (st', ev, step) ->
      In (VerifyToken t) ev ->
      t <> "" /\ no_char " " t = true
      /\ exists h, authorization (req ctx) = Some h
                   /\ nth_error (split " " h) 1 = Some t)
  /\ (forall s t rest,
      no_char " " s = true -> no_char " " t = true ->
      token_of (Some (s ++ " " ++ t ++ " " ++ rest)) = Some t).
Proof.
  split.
  - intros env st ctx st' ev step t Hauth Hin.
    unfold authenticateToken in Hauth.
    destruct (truthy_string (token_of (authorization (req ctx)))) eqn:Et;
      simpl in Hauth; [|injection Hauth as _ <- _; destruct Hin].
    destruct (token_of (authorization (req ctx))) as [t'|] eqn:Ht;
      [|discriminate].
    assert (t' = t) as ->.
    { destruct (jwt_verify t' JWT_SECRET (now env));
        injection Hauth as _ <- _; destruct Hin as [H|[]]; now injection H. }
    simpl in Et. apply negb_true_iff in Et.
    split; [now apply String.eqb_neq|].
    unfold token_of in Ht.
    destruct (authorization (req ctx)) as [h|]; [|discriminate].
    destruct (truthy_string (Some h)) eqn:Eh.
    + split; [|exists h; split; [reflexivity|exact Ht]].
      pose proof (split_pieces_no_sep " " h) as Hall.
      rewrite Forall_forall in Hall. apply Hall.
      now apply nth_error_In in Ht.
    + injection Ht as ->. simpl in Eh. apply negb_false_iff in Eh.
      congruence.
  - intros s t rest Hs Ht. unfold token_of. simpl.
    rewrite append_sep_nonempty. simpl.
    rewrite (split_app_sep " " s _ Hs), (split_app_sep " " t rest Ht).
    reflexivity.
Qed.

(** X13.  The signing secret is never empty: it is the environment's
    JWT_SECRET when that is set to a non-empty string, and the fallback
    ['changeme'] when it is unset and also when it is set to the empty
    string. *)
Theorem secret_is_never_empty :
  JWT_SECRET <> ""
  /\ (forall s, env_JWT_SECRET = Some s -> s <> "" -> JWT_SECRET = s)
  /\ (env_JWT_SECRET = None \/ env_JWT_SECRET = Some "" ->
      JWT_SECRET = "changeme").
Proof.
  unfold JWT_SECRET. repeat split.
  - destruct env_JWT_SECRET as [s|]; simpl; [|discriminate].
    destruct (s =? "") eqn:E; simpl; [discriminate|].
    now apply String.eqb_neq.
  - intros s -> Hs. simpl. apply String.eqb_neq in Hs. now rewrite Hs.
  - intros [->| ->]; reflexivity.
Qed.
End Header.

(** ** The proxy and the bot *)

Section Proxy.
Context {axios : Axios}.

(** X14.  GET /api/ea/clubdetails asks nothing of the upstream unless both
    [platform] and [clubId] are given and non-empty, and then answers 400;
    otherwise it makes exactly one request, always to
    https://proclubs.ea.com/api/clubdetails, and answers 200 with the
    upstream data or, when the request fails, 500 with the error message.
    No other status is ever sent. *)
Theorem proxy_asks_only_the_club_details_endpoint platform clubId :
  let (urls, res) := Ea.clubdetails platform clubId in
  (Ea.status res = 400%N
   <-> truthy_string platform = false \/ truthy_string clubId = false)
  /\ (Ea.status res = 400%N -> urls = [])
  /\ (Ea.status res <> 400%N ->
      exists p c, platform = Some p /\ clubId = Some c
                  /\ urls = [Ea.url p c]
                  /\ match axios_get (Ea.url p c) with
                     | inl data => res = Ea.mk 200 (Ea.Data data)
                     | inr message =>
                         res = Ea.mk 500 (Ea.Error "EA API error" (Some message))
                     end)
  /\ (forall u, In u urls ->
        String.prefix "https://proclubs.ea.com/api/clubdetails?platform=" u
        = true).
Proof.
  unfold Ea.clubdetails.
  destruct (truthy_string platform) eqn:Ep; simpl.
  2:{ repeat split; auto; try contradiction; intros u []. }
  destruct (truthy_string clubId) eqn:Ec; simpl.
  2:{ repeat split; auto; try contradiction; intros u []. }
  destruct platform as [p|]; [|discriminate].
  destruct clubId as [c|]; [|discriminate].
  assert (Hprefix : forall u, In u [Ea.url p c] ->
            String.prefix "https://proclubs.ea.com/api/clubdetails?platform=" u
            = true).
  { intros u [<-|[]]. unfold Ea.url. apply prefix_append. }
  destruct (axios_get (Ea.url p c)) as [data|message] eqn:E; simpl;
    (split; [split; [discriminate|intros [H|H]; discriminate]|]);
    (split; [discriminate|]);
    (split; [|exact Hprefix]);
    intros _; exists p, c; rewrite E; repeat split.
Qed.
End Proxy.

(** X15.  The bot answers a message at most once, never answers a bot,
    and its answer can never set it off again: fed back as a message,
    from a bot or not, ['Pong!'] gets no reply. *)
Theorem bot_reply_never_triggers_the_bot (message : Bot.Message) :
  (List.length (Bot.messageCreate message) <= 1)%nat
  /\ (Bot.author_bot message = true -> Bot.messageCreate message = [])
  /\ (Bot.messageCreate message <> [] -> Bot.content message = "!ping")
  /\ forall reply, In reply (Bot.messageCreate message) ->
       forall from_bot, Bot.messageCreate (Bot.mk from_bot reply) = [].
Proof.
  unfold Bot.messageCreate.
  destruct (Bot.author_bot message); simpl.
  - repeat split; auto; try contradiction; try (intros reply []).
  - destruct (Bot.content message =? "!ping") eqn:E; simpl.
    + apply String.eqb_eq in E.
      repeat split; auto; try discriminate;
        try (intros reply [<-|[]] []; reflexivity).
    + repeat split; auto; try contradiction; try discriminate;
        try (intros reply []).
Qed.

(** ** The table does not depend on the order of creation *)

Lemma points_geb_antisym (a b : option Z) :
  points_geb a b = true -> points_geb b a = true -> a = b.
Proof.
  destruct a as [x|], b as [y|]; simpl; try discriminate; trivial.
  intros H1 H2. apply Z.leb_le in H1, H2. f_equal. lia.
Qed.

Lemma sorted_permutation_unique {A} (R : A -> A -> Prop) :
  (forall a b, R a b -> R b a -> a = b) ->
  forall l1 l2,
    StronglySorted R l1 -> StronglySorted R l2 -> Permutation l1 l2 ->
    l1 = l2.
Proof.
  intros Hanti. induction l1 as [|a t1 IH]; intros l2 H1 H2 Hperm.
  - apply Permutation_nil in Hperm. now subst.
  - destruct l2 as [|b t2].
    + apply Permutation_sym, Permutation_nil in Hperm. discriminate.
    + inversion H1 as [|? ? Ht1 Ha]; inversion H2 as [|? ? Ht2 Hb]; subst.
      rewrite Forall_forall in Ha, Hb.
      assert (a = b) as ->.
      { assert (Hina : In a (b :: t2))
          by (apply (Permutation_in _ Hperm); now left).
        assert (Hinb : In b (a :: t1))
          by (apply (Permutation_in _ (Permutation_sym Hperm)); now left).
        destruct Hina as [->|Hina]; [reflexivity|].
        destruct Hinb as [->|Hinb]; [reflexivity|].
        apply Hanti; [now apply Ha|now apply Hb]. }
      f_equal. apply IH; trivial.
      now apply Permutation_cons_inv in Hperm.
Qed.

Lemma sorted_points (c : list Standing.doc) :
  StronglySorted by_points_desc c ->
  StronglySorted (fun a b => points_geb a b = true) (map Standing.points c).
Proof.
  induction 1 as [|d r Hs IH Hd]; simpl; constructor; [exact IH|].
  rewrite Forall_forall in Hd |- *. intros x Hx.
  apply in_map_iff in Hx as [e [<- He]]. now apply Hd.
Qed.

Lemma sort_points_desc_points (c1 c2 : list Standing.doc) :
  Permutation c1 c2 ->
  map Standing.points (sort_points_desc c1)
  = map Standing.points (sort_points_desc c2).
Proof.
  intros Hperm.
  apply (sorted_permutation_unique _ points_geb_antisym);
    try (apply sorted_points, sort_points_desc_sorted).
  apply Permutation_map.
  rewrite (sort_points_desc_perm c1), (sort_points_desc_perm c2).
  exact Hperm.
Qed.

Section Order.
Context {jwt : Jwt} {bcrypt : Bcrypt} {process : ProcessEnv}.

(** X16.  The points column of the table does not depend on the order in
    which standings were stored: for two stores holding the same standings
    in any order, GET /api/standings returns rows that are a rearrangement
    of each other and whose [pts] are the same sequence. *)
Theorem table_points_independent_of_storage_order env st1 st2 r :
  method r = GET -> path r = api_standings -> parses (payload r) = true ->
  Permutation (standings st1) (standings st2) ->
  exists rows1 rows2,
    snd (app env st1 r) = Sent (mkResponse 200 (JsonRows rows1))
    /\ snd (app env st2 r) = Sent (mkResponse 200 (JsonRows rows2))
    /\ Permutation rows1 rows2
    /\ map Row.pts rows1 = map Row.pts rows2.
Proof.
  intros Hm Hpath Hp Hperm.
  rewrite (app_get_standings env st1 r Hm Hpath Hp),
          (app_get_standings env st2 r Hm Hpath Hp).
  do 2 eexists. split; [reflexivity|]. split; [reflexivity|]. split.
  - apply Permutation_map.
    rewrite (sort_points_desc_perm (standings st1)),
            (sort_points_desc_perm (standings st2)).
    exact Hperm.
  - rewrite !map_map.
    change (fun x => Row.pts (mapped x))
      with (fun x => of_Number (Standing.points x)).
    rewrite <- !(map_map Standing.points of_Number).
    now rewrite (sort_points_desc_points _ _ Hperm).
Qed.

(** X17.  Registering an email again never takes the account over: once
    a login by email resolves to a user, it resolves to the same user after
    any sequence of requests, further registrations of that email
    included. *)
Theorem first_account_keeps_its_email st rs email u :
  findOne_email email (users st) = Some u ->
  findOne_email email (users (fst (serve st rs))) = Some u.
Proof.
  intros Hu. destruct (serve_users_grow rs st) as [extra ->].
  now apply findOne_email_app_found.
Qed.
End Order.

(** ** A token from login on the mutating routes *)

Section Session.
Context {jwt : Jwt} {bcrypt : Bcrypt} {process : ProcessEnv}.

Hypothesis jwt_verify_sign : forall payload secret expiresIn issued t,
  jwt_verify (jwt_sign payload secret expiresIn issued) secret t
  = if (t <? issued + expiresIn)%N then Some payload else None.

Hypothesis jwt_sign_compact : forall payload secret expiresIn issued,
  no_char " " (jwt_sign payload secret expiresIn issued) = true
  /\ jwt_sign payload secret expiresIn issued <> "".

End Session.

(** ** Further concrete runs *)

Section MoreRuns.
Import Plain Sample.
#[local] Open Scope N_scope.

Lemma request_changes_only_its_collection_witness :
  collection (path put_club_logo) <> Some Players
  /\ players (fst (fst (app clock one_club put_club_logo))) = players one_club.
Proof.
  split; [discriminate|].
  apply (request_changes_only_its_collection clock one_club put_club_logo).
  discriminate.
Defined.

Lemma resources_change_only_with_a_valid_token_witness :
  authenticated clock post_club_no_token = false
  /\ authenticated expired post_club = false
  /\ clubs (fst (serve one_club [(clock, post_club_no_token);
                                 (expired, post_club)]))
     = clubs one_club.
Proof.
  split; [vm_compute; reflexivity|]. split; [vm_compute; reflexivity|].
  apply (resources_change_only_with_a_valid_token one_club
           [(clock, post_club_no_token); (expired, post_club)]).
  intros env r [H|[H|[]]]; injection H as <- <-; vm_compute; reflexivity.
Defined.


Lemma login_failures_are_indistinguishable_witness :
  findOne_email (Some "nobody@club.example") (users one_user) = None
  /\ app later one_user login_unknown
     = (one_user, [ReadBody; Db FindOne],
        Sent (mkResponse 400 (JsonError "Invalid credentials")))
  /\ app later one_user login_second
     = (one_user, [ReadBody; Db FindOne],
        Sent (mkResponse 400 (JsonError "Invalid credentials"))).
Proof.
  split; [reflexivity|]. split.
  - apply (login_failures_are_indistinguishable later one_user login_unknown
             (credentials "nobody@club.example" "first") "first");
      try reflexivity.
    left. reflexivity.
  - apply (login_failures_are_indistinguishable later one_user login_second
             (credentials "a@club.example" "second") "second");
      try reflexivity.
    right. exists (User.mk 0 (Some "a@club.example") (Some "$plain$first$salt")).
    exists "$plain$first$salt". repeat split.
Defined.

Lemma created_record_is_listed_witness :
  authenticated clock post_club = true
  /\ exists c,
      snd (serve empty_db [(clock, post_club); (later, get_clubs)])
      = [Sent (mkResponse 201 (JsonClub (Some c)));
         Sent (mkResponse 200 (JsonClubs [c]))].
Proof.
  assert (Ha : authenticated clock post_club = true) by (vm_compute; reflexivity).
  split; [exact Ha|].
  exact (proj1 (@created_record_is_listed Plain.jwt Plain.bcrypt Plain.process)
               clock later empty_db post_club get_clubs
               eq_refl eq_refl eq_refl Ha eq_refl eq_refl eq_refl).
Defined.

Lemma delete_removes_exactly_the_record_witness :
  authenticated clock (delete_club 0) = true
  /\ exists t,
      app clock one_club (delete_club 0)
      = (mkState [] [] [] [] 1, [VerifyToken t; Db Remove],
         Sent (mkResponse 204 Empty)).
Proof.
  assert (Ha : authenticated clock (delete_club 0) = true)
    by (vm_compute; reflexivity).
  split; [exact Ha|].
  destruct (proj1 (@delete_removes_exactly_the_record
                     Plain.jwt Plain.bcrypt Plain.process)
              clock one_club (delete_club 0) 0 []
              (Club.mk 0 (Some "Red FC") None (Some "founded 2020") None) []
              eq_refl eq_refl eq_refl Ha eq_refl eq_refl (fun H => H))
    as [t [Happ _]].
  exists t. exact Happ.
Defined.

Lemma create_then_delete_restores_the_store_witness :
  authenticated clock post_club = true
  /\ authenticated later (delete_club 0) = true
  /\ serve empty_db [(clock, post_club); (later, delete_club 0)]
     = (mkState [] [] [] [] 1,
        [Sent (mkResponse 201 (JsonClub (Some (Club.create 0 red_fc))));
         Sent (mkResponse 204 Empty)]).
Proof.
  assert (Ha1 : authenticated clock post_club = true)
    by (vm_compute; reflexivity).
  assert (Ha2 : authenticated later (delete_club 0) = true)
    by (vm_compute; reflexivity).
  split; [exact Ha1|]. split; [exact Ha2|].
  apply (proj1 (@create_then_delete_restores_the_store
                  Plain.jwt Plain.bcrypt Plain.process)
               clock later empty_db post_club (delete_club 0)
               eq_refl eq_refl eq_refl Ha1 eq_refl eq_refl eq_refl Ha2
               empty_ids_fresh).
Defined.

Lemma put_keeps_every_identifier_witness :
  method put_club_unknown = PUT
  /\ ids_at api_clubs (fst (fst (app clock one_club put_club_unknown)))
     = ids_at api_clubs one_club
  /\ next_oid (fst (fst (app clock one_club put_club_unknown)))
     = next_oid one_club.
Proof.
  split; [reflexivity|].
  destruct (put_keeps_every_identifier clock one_club put_club_unknown eq_refl)
    as [Hids Hnext].
  split; [apply Hids|exact Hnext].
Defined.

Lemma update_twice_is_update_once_witness :
  authenticated clock put_club_logo = true
  /\ authenticated later put_club_logo = true
  /\ exists st1 ev1 ev2 out,
      app clock one_club put_club_logo = (st1, ev1, out)
      /\ app later st1 put_club_logo = (st1, ev2, out).
Proof.
  assert (Ha1 : authenticated clock put_club_logo = true)
    by (vm_compute; reflexivity).
  assert (Ha2 : authenticated later put_club_logo = true)
    by (vm_compute; reflexivity).
  split; [exact Ha1|]. split; [exact Ha2|].
  exact (update_twice_is_update_once clock later one_club put_club_logo 0
           eq_refl eq_refl eq_refl Ha1 Ha2).
Defined.

Lemma verified_token_is_the_second_word_witness :
  no_char " " admin_token = true
  /\ token_of (Some ("Bearer " ++ admin_token ++ " trailing words"))
     = Some admin_token.
Proof.
  assert (Hns : no_char " " admin_token = true) by (vm_compute; reflexivity).
  split; [exact Hns|].
  apply (proj2 (@verified_token_is_the_second_word Plain.jwt Plain.process)
               "Bearer" admin_token "trailing words" eq_refl Hns).
Defined.

Lemma table_points_independent_of_storage_order_witness :
  Permutation (standings two_rows) (standings two_rows_reversed)
  /\ exists rows1 rows2,
      snd (app later two_rows get_standings)
      = Sent (mkResponse 200 (JsonRows rows1))
      /\ snd (app later two_rows_reversed get_standings)
         = Sent (mkResponse 200 (JsonRows rows2))
      /\ map Row.pts rows1 = map Row.pts rows2.
Proof.
  assert (Hperm : Permutation (standings two_rows) (standings two_rows_reversed))
    by apply Permutation_rev.
  split; [exact Hperm|].
  destruct (table_points_independent_of_storage_order
              later two_rows two_rows_reversed get_standings
              eq_refl eq_refl eq_refl Hperm)
    as [rows1 [rows2 [H1 [H2 [_ H3]]]]].
  exists rows1, rows2. repeat split; assumption.
Defined.

Lemma first_account_keeps_its_email_witness :
  findOne_email (Some "a@club.example") (users one_user)
  = Some (User.mk 0 (Some "a@club.example") (Some "$plain$first$salt"))
  /\ findOne_email (Some "a@club.example")
       (users (fst (serve one_user [(later, register_second)])))
     = Some (User.mk 0 (Some "a@club.example") (Some "$plain$first$salt")).
Proof.
  split; [reflexivity|].
  apply (first_account_keeps_its_email one_user [(later, register_second)]).
  reflexivity.
Defined.

End MoreRuns.
